(** * A shallow embedding of [script.py] (the xmrig helper)

    The program detects the host platform, asks the release API whether a
    newer xmrig exists, filters the release assets for the host, and
    rewrites the pool section of the extracted [config.json].  The pure
    parts are modelled as Rocq functions; the I/O around them (the HTTP
    reply, the parsed configuration file) is an explicit argument. *)

From Stdlib Require Import String Ascii List Bool ZArith Lia.
Import ListNotations.
Open Scope string_scope.
Set Warnings "-register-all".

(** ** Python string primitives on ASCII strings *)

(** [str.lower()] restricted to ASCII: A..Z become a..z. *)
Definition ascii_lower (c : ascii) : ascii :=
  let n := nat_of_ascii c in
  if (65 <=? n)%nat && (n <=? 90)%nat then ascii_of_nat (n + 32)%nat else c.

Fixpoint lower (s : string) : string :=
  match s with
  | EmptyString => EmptyString
  | String c s' => String (ascii_lower c) (lower s')
  end.

(** [needle in hay] for two strings: some suffix of [hay] starts with
    [needle]. *)
Fixpoint contains (needle hay : string) : bool :=
  prefix needle hay ||
  match hay with
  | EmptyString => false
  | String _ hay' => contains needle hay'
  end.

(** [d.get(k, default)] on a dict literal, kept as an association list in
    its source order. *)
Fixpoint assoc_get {V} (k : string) (d : list (string * V)) : option V :=
  match d with
  | [] => None
  | (k', v) :: d' => if String.eqb k k' then Some v else assoc_get k d'
  end.

Definition dict_get_default {V} (d : list (string * V)) (k : string) (dflt : V) : V :=
  match assoc_get k d with Some v => v | None => dflt end.

(** ** [detect_system] *)

Definition os_map : list (string * string) :=
  [("linux", "linux"); ("darwin", "macos"); ("windows", "windows")].

Definition arch_map : list (string * string) :=
  [("x86_64", "x64"); ("amd64", "x64");
   ("i386", "x86"); ("i686", "x86");
   ("aarch64", "arm64"); ("arm64", "arm64");
   ("armv7l", "arm32"); ("armv6l", "arm32")].

(** [platform.system()] and [platform.machine()] are the two arguments;
    the Rosetta probe and the printing do not change the returned pair. *)
Definition detect_system (system machine_raw : string) : string * string :=
  let os_raw := lower system in
  let machine := lower machine_raw in
  let os_name := dict_get_default os_map os_raw "unknown" in
  let arch := dict_get_default arch_map machine
                (if contains "arm" machine then "arm32" else "unknown") in
  (os_name, arch).

(** ** Release assets and [find_matching_assets] *)

(** One entry of the API's [assets] array; the script reads the keys
    [id], [os], [name], [size] and [url]. *)
Record asset := mk_asset {
  a_id : string;
  a_os : string;
  a_name : string;
  a_url : string;
  a_size : Z
}.

(** The condition of the list comprehension. *)
Definition asset_matches (os_name arch : string) (a : asset) : bool :=
  let os_arch := os_name ++ "-" ++ arch in
  let aos := lower (a_os a) in
  let aid := lower (a_id a) in
  (String.eqb os_arch aos || String.eqb os_arch aid)
  || (contains os_name aos && contains arch aos)
  || (contains os_name aid && contains arch aid).

Definition find_matching_assets (assets : list asset) (os_name arch : string) : list asset :=
  filter (asset_matches os_name arch) assets.

(** What [main] does with the matches (lines 227-230 and 237-240):
    abort when there is none, take the only one, otherwise prompt the
    user through [choose_asset]. *)
Inductive resolution :=
  | RDie (msg : string)
  | RChosen (a : asset)
  | RPrompt (matches : list asset).

Definition resolve (assets : list asset) (os_name arch : string) : resolution :=
  match find_matching_assets assets os_name arch with
  | [] => RDie "No matching assets found."
  | [a] => RChosen a
  | ms => RPrompt ms
  end.

(** [main] from the host's raw names to the resolution step. *)
Definition resolve_for_host (system machine_raw : string) (assets : list asset) : resolution :=
  let '(os_name, arch) := detect_system system machine_raw in
  resolve assets os_name arch.

(** ** [parse_xmrig_version]: [re.search(r'\b\d+\.\d+\.\d+\b', output)] *)

Definition is_digit (c : ascii) : bool :=
  let n := nat_of_ascii c in (48 <=? n)%nat && (n <=? 57)%nat.

(** The [\w] class on ASCII: letters, digits and underscore. *)
Definition is_word (c : ascii) : bool :=
  let n := nat_of_ascii c in
  is_digit c || ((65 <=? n)%nat && (n <=? 90)%nat)
  || ((97 <=? n)%nat && (n <=? 122)%nat) || Ascii.eqb c "_".

Fixpoint span_digits (l : list ascii) : list ascii * list ascii :=
  match l with
  | c :: l' =>
      if is_digit c then let '(d, r) := span_digits l' in (c :: d, r)
      else ([], l)
  | [] => ([], [])
  end.

(** [\b] after a digit: the next character is not a word character. *)
Definition boundary_after (r : list ascii) : bool :=
  match r with [] => true | c :: _ => negb (is_word c) end.

(** [\b] before a digit: the previous character is not a word character. *)
Definition boundary_before (prev : option ascii) : bool :=
  match prev with None => true | Some c => negb (is_word c) end.

(** A match of the pattern starting at this position.  Each [\d+] is
    followed by a non-digit ([\.] or [\b] after a digit), so only the
    longest digit run can take part in a match and no backtracking is
    needed. *)
Definition match_version_at (prev : option ascii) (l : list ascii) : option (list ascii) :=
  if negb (boundary_before prev) then None else
  let '(d1, r1) := span_digits l in
  match d1, r1 with
  | _ :: _, c1 :: r1' =>
      if negb (Ascii.eqb c1 ".") then None else
      let '(d2, r2) := span_digits r1' in
      match d2, r2 with
      | _ :: _, c2 :: r2' =>
          if negb (Ascii.eqb c2 ".") then None else
          let '(d3, r3) := span_digits r2' in
          match d3 with
          | _ :: _ =>
              if boundary_after r3 then Some (d1 ++ "."%char :: d2 ++ "."%char :: d3)%list
              else None
          | [] => None
          end
      | _, _ => None
      end
  | _, _ => None
  end.

(** [re.search]: the leftmost starting position with a match. *)
Fixpoint search_version (prev : option ascii) (l : list ascii) : option (list ascii) :=
  match match_version_at prev l with
  | Some m => Some m
  | None => match l with [] => None | c :: l' => search_version (Some c) l' end
  end.

(** [None] is the [die("Unable to parse version from xmrig output.")]
    branch, which ends the process. *)
Definition parse_xmrig_version (output : string) : option string :=
  match search_version None (list_ascii_of_string output) with
  | Some m => Some (string_of_list_ascii m)
  | None => None
  end.

(** ** JSON values as [json.loads] returns them *)

(** Objects keep their keys in insertion order, as Python dicts do. *)
Inductive json :=
  | JNull
  | JBool (b : bool)
  | JNum (z : Z)
  | JStr (s : string)
  | JArr (l : list json)
  | JObj (kvs : list (string * json)).

(** [d[k] = v] on a dict: an existing key keeps its place, a new key is
    appended. *)
Fixpoint dict_set (k : string) (v : json) (d : list (string * json)) : list (string * json) :=
  match d with
  | [] => [(k, v)]
  | (k', v') :: d' => if String.eqb k k' then (k, v) :: d' else (k', v') :: dict_set k v d'
  end.

(** Python truthiness of a decoded JSON value ([if not update]). *)
Definition json_truthy (j : json) : bool :=
  match j with
  | JNull => false
  | JBool b => b
  | JNum z => negb (Z.eqb z 0)
  | JStr s => negb (String.eqb s "")
  | JArr l => match l with [] => false | _ => true end
  | JObj kvs => match kvs with [] => false | _ => true end
  end.

Definition json_str_eqb (v : option json) (s : string) : bool :=
  match v with Some (JStr s') => String.eqb s' s | _ => false end.

(** ** [check_for_update] and the decision in [main] *)

(** The outcome of [urlopen] on the release API: a 200 reply with its
    body ([None] when it is not JSON), an [HTTPError] with its code and
    body, or any other exception. *)
Inductive http_reply :=
  | Reply200 (body : option json)
  | ReplyHTTPError (code : Z) (body : option json)
  | ReplyFailure.

Definition update_url (version : string) : string :=
  "https://api.xmrig.com/1/latest_release?version_gt=" ++ version.

Inductive update_check :=
  | UpdateFound (j : json)
  | UpToDate
  | CheckDie (msg : string).

(** [server] answers a URL.  [die] raises [SystemExit], which the inner
    [except Exception] does not catch. *)
Definition check_for_update (server : string -> http_reply) (version : string) : update_check :=
  match server (update_url version) with
  | Reply200 (Some j) => UpdateFound j
  | Reply200 None => CheckDie "Failed to check for update"
  | ReplyHTTPError code body =>
      if Z.eqb code 404 then
        match body with
        | Some (JObj data) =>
            if json_str_eqb (assoc_get "error" data) "UPDATE_NOT_FOUND" then UpToDate
            else CheckDie "Unexpected 404 response"
        | _ => CheckDie "404 received, but failed to parse JSON"
        end
      else CheckDie "HTTP error"
  | ReplyFailure => CheckDie "Failed to check for update"
  end.

(** Lines 222-225 of [main]. *)
Inductive update_decision :=
  | Proceed (update : json)
  | ExitUpToDate
  | Abort (msg : string).

Definition update_step (server : string -> http_reply) (version : string) : update_decision :=
  match check_for_update server version with
  | UpdateFound j => if json_truthy j then Proceed j else ExitUpToDate
  | UpToDate => ExitUpToDate
  | CheckDie m => Abort m
  end.

(** ** [update_config_json] *)

Definition pool_url : string := "pool.hashvault.pro:443".
Definition pool_user : string :=
  "4AUvAWKacmtPxR6xEYnZPSBZgVuwNtP4iKxsUsXAT9GGjCyrCuVkGhhcSQVxVo3zWDUYWCGMyHfavheUH3Hmjf49MzvBEfu".
Definition pool_fingerprint : string :=
  "420c7850e09b7c0bdcf748a7da9eb3647daf8515718f36d9ccfdd6b9ff834b14".

(** The four assignments to [pool], in source order. *)
Definition rewrite_pool (pool : list (string * json)) : list (string * json) :=
  dict_set "tls-fingerprint" (JStr pool_fingerprint)
    (dict_set "tls" (JBool true)
      (dict_set "user" (JStr pool_user)
        (dict_set "url" (JStr pool_url) pool))).

(** The state of [config.json] in the extracted folder. *)
Inductive config_file :=
  | NoFile
  | Unparsable
  | Parsed (config : json).

(** [CfgFailed] is the [except Exception] branch: the failure is printed
    and the file is left as it was. *)
Inductive config_outcome :=
  | CfgNotFound
  | CfgFailed
  | CfgWritten (config : json).

Definition is_pools_str (j : json) : bool :=
  match j with JStr s => String.eqb s "pools" | _ => false end.

(** [pool = config['pools'][0]] aliases the first pool, so the
    assignments change it inside [config]; [pool['url'] = ...] on a
    non-dict raises [TypeError].  On a list, [config['pools']] raises
    [TypeError] once ['pools' in config] holds; on a number, a boolean or
    [None], ['pools' in config] raises it. *)
Definition update_config_json (f : config_file) : config_outcome :=
  match f with
  | NoFile => CfgNotFound
  | Unparsable => CfgFailed
  | Parsed config =>
      match config with
      | JObj kvs =>
          match assoc_get "pools" kvs with
          | Some (JArr (JObj pool :: rest)) =>
              CfgWritten (JObj (dict_set "pools" (JArr (JObj (rewrite_pool pool) :: rest)) kvs))
          | Some (JArr (_ :: _)) => CfgFailed
          | _ => CfgWritten config
          end
      | JArr l => if existsb is_pools_str l then CfgFailed else CfgWritten config
      | JStr s => if contains "pools" s then CfgFailed else CfgWritten config
      | JNull | JBool _ | JNum _ => CfgFailed
      end
  end.

(** ** [choose_asset] *)

(** The ASCII white space [int()] strips around its argument: tab to
    carriage return, and space (CPython's [Py_ISSPACE]; unlike
    [str.isspace], not the separators 0x1c-0x1f). *)
Definition py_isspace (c : ascii) : bool :=
  let n := nat_of_ascii c in
  ((9 <=? n)%nat && (n <=? 13)%nat) || (n =? 32)%nat.

Fixpoint lstrip (l : list ascii) : list ascii :=
  match l with
  | c :: l' => if py_isspace c then lstrip l' else l
  | [] => []
  end.

Definition strip (l : list ascii) : list ascii := rev (lstrip (rev (lstrip l))).

Definition digit_value (c : ascii) : Z := Z.of_nat (nat_of_ascii c - 48).

(** The digits after the first one: a digit, or an underscore followed
    by a digit. *)
Fixpoint digits_us (l : list ascii) (acc : Z) : option Z :=
  match l with
  | [] => Some acc
  | c :: l' =>
      if is_digit c then digits_us l' (acc * 10 + digit_value c)%Z
      else if Ascii.eqb c "_" then
        match l' with
        | d :: l'' => if is_digit d then digits_us l'' (acc * 10 + digit_value d)%Z else None
        | [] => None
        end
      else None
  end.

Definition int_body (l : list ascii) : option Z :=
  match l with
  | d :: l' => if is_digit d then digits_us l' (digit_value d) else None
  | [] => None
  end.

(** [int(s)] in base 10; [None] is the [ValueError]. *)
Definition py_int (s : string) : option Z :=
  let l := strip (list_ascii_of_string s) in
  match l with
  | c :: r =>
      if Ascii.eqb c "+" then int_body r
      else if Ascii.eqb c "-" then option_map Z.opp (int_body r)
      else int_body l
  | [] => None
  end.

(** The [while True] loop, one line of standard input per iteration.
    When the input is exhausted [input()] raises [EOFError], which the
    loop does not catch: [None]. *)
Fixpoint choose_asset (matches : list asset) (inputs : list string) : option asset :=
  match inputs with
  | [] => None
  | s :: rest =>
      match py_int s with
      | Some choice =>
          if ((1 <=? choice) && (choice <=? Z.of_nat (length matches)))%Z
          then nth_error matches (Z.to_nat (choice - 1)%Z)
          else choose_asset matches rest
      | None => choose_asset matches rest
      end
  end.

(** [str(i)] for the menu labels [[i]] printed by [choose_asset]. *)
Definition digit_char (d : nat) : ascii := ascii_of_nat (48 + d).

Fixpoint decimal_aux (fuel n : nat) (acc : list ascii) : list ascii :=
  match fuel with
  | O => acc
  | S f =>
      if (n <? 10)%nat then digit_char n :: acc
      else decimal_aux f (n / 10) (digit_char (n mod 10) :: acc)
  end.

Definition py_str_nat (n : nat) : string := string_of_list_ascii (decimal_aux (S n) n []).

(** ** [posixpath] helpers *)

Definition slash : ascii := "/".

Definition ends_with_slash (s : string) : bool :=
  match rev (list_ascii_of_string s) with c :: _ => Ascii.eqb c slash | [] => false end.

(** [os.path.join(a, b)] with two arguments. *)
Definition posix_join (a b : string) : string :=
  if prefix "/" b then b
  else if String.eqb a "" || ends_with_slash a then a ++ b
  else a ++ "/" ++ b.

Fixpoint drop_while (f : ascii -> bool) (l : list ascii) : list ascii :=
  match l with c :: l' => if f c then drop_while f l' else l | [] => [] end.

Fixpoint take_while (f : ascii -> bool) (l : list ascii) : list ascii :=
  match l with c :: l' => if f c then c :: take_while f l' else [] | [] => [] end.

Definition not_slash (c : ascii) : bool := negb (Ascii.eqb c slash).

(** [os.path.basename]: what follows the last slash. *)
Definition basename (p : string) : string :=
  string_of_list_ascii (rev (take_while not_slash (rev (list_ascii_of_string p)))).

(** [os.path.dirname]: up to the last slash, trailing slashes removed
    unless the head consists of slashes only. *)
Definition dirname (p : string) : string :=
  let head := rev (drop_while not_slash (rev (list_ascii_of_string p))) in
  if negb (forallb (fun c => Ascii.eqb c slash) head)
  then string_of_list_ascii (rev (drop_while (fun c => Ascii.eqb c slash) (rev head)))
  else string_of_list_ascii head.

(** ** The directory walks of [search_xmrig] and [preserve_config] *)

(** [os.walk(d)] as the list of its [(root, files)] entries in walk
    order.  Both functions run the same two nested loops: the first name
    selected by [sel] whose [step] returns leaves both loops. *)
Fixpoint walk_files {R} (sel : string -> bool) (step : string -> option R)
    (root : string) (files : list string) : option R :=
  match files with
  | [] => None
  | name :: rest =>
      if sel name then
        match step (posix_join root name) with
        | Some r => Some r
        | None => walk_files sel step root rest
        end
      else walk_files sel step root rest
  end.

Fixpoint walk_first {R} (sel : string -> bool) (step : string -> option R)
    (walk : list (string * list string)) : option R :=
  match walk with
  | [] => None
  | (root, files) :: rest =>
      match walk_files sel step root files with
      | Some r => Some r
      | None => walk_first sel step rest
      end
  end.

(** The paths the nested loops visit for the names [sel] accepts. *)
Definition walk_paths (sel : string -> bool) (walk : list (string * list string)) : list string :=
  flat_map (fun '(root, files) => map (posix_join root) (filter sel files)) walk.

(** The first path whose [step] gives a result. *)
Fixpoint first_some {R} (step : string -> option R) (paths : list string) : option R :=
  match paths with
  | [] => None
  | p :: ps => match step p with Some r => Some r | None => first_some step ps end
  end.

Inductive search_result :=
  | SFound (version path : string) (config_lines : list string)
  | SNotFound
  | SDie (msg : string).

Definition is_xmrig_name (name : string) : bool :=
  String.eqb (lower name) "xmrig" || String.eqb (lower name) "xmrig.exe".

(** The body of the [try] in [search_xmrig] for one path.  [run] is
    [check_output([path, "--version"])] ([None]: it raised, and the
    path is skipped); [isfile] and [load] ([load_lines], [None]: it
    failed) read the directory's [config.json].  [die] raises
    [SystemExit], which [except Exception] lets through. *)
Definition probe_xmrig (run : string -> option string) (isfile : string -> bool)
    (load : string -> option (list string)) (path : string) : option search_result :=
  match run path with
  | None => None
  | Some output =>
      match parse_xmrig_version output with
      | None => Some (SDie "Unable to parse version from xmrig output.")
      | Some version =>
          let config_path := posix_join (dirname path) "config.json" in
          if isfile config_path then
            match load config_path with
            | Some lines => Some (SFound version path lines)
            | None => Some (SDie "Failed to read config.json")
            end
          else Some (SFound version path [])
      end
  end.

Definition search_xmrig (run : string -> option string) (isfile : string -> bool)
    (load : string -> option (list string)) (walk : list (string * list string)) : search_result :=
  match walk_first is_xmrig_name (probe_xmrig run isfile load) walk with
  | Some r => r
  | None => SNotFound
  end.

(** [os.path.samefile] through [os.stat]: [inode] identifies an existing
    file (device and inode number), [None] when it does not exist, in
    which case [samefile] raises. *)
Definition samefile (inode : string -> option Z) (a b : string) : option bool :=
  match inode a, inode b with
  | Some x, Some y => Some (Z.eqb x y)
  | _, _ => None
  end.

Inductive preserve_result :=
  | PCOverwrite (path : string) (lines : list string)
  | PCMismatch (path : string) (update : config_outcome)
  | PCNotFound
  | PCCrash
  | PCDie (msg : string).

(** One [config.json] found by the walk.  [None] continues the walk (the
    file is the old one); [PCCrash] is the uncaught exception of
    [samefile]; [cfg] gives the state of a [config.json] for
    [update_config_json]. *)
Definition preserve_step (old_path : string) (old_config_lines : list string)
    (inode : string -> option Z) (load : string -> option (list string))
    (cfg : string -> config_file) (new_path : string) : option preserve_result :=
  match samefile inode new_path (posix_join (dirname old_path) "config.json") with
  | None => Some PCCrash
  | Some true => None
  | Some false =>
      match load new_path with
      | None => Some (PCDie "Failed to read config.json")
      | Some new_lines =>
          if (length new_lines =? length old_config_lines)%nat
          then Some (PCOverwrite new_path old_config_lines)
          else Some (PCMismatch new_path
                       (update_config_json (cfg (posix_join (dirname new_path) "config.json"))))
      end
  end.

Definition is_config_name (name : string) : bool := String.eqb name "config.json".

Definition preserve_config (old_path : string) (old_config_lines : list string)
    (inode : string -> option Z) (load : string -> option (list string))
    (cfg : string -> config_file) (walk : list (string * list string)) : preserve_result :=
  match walk_first is_config_name (preserve_step old_path old_config_lines inode load cfg) walk with
  | Some r => r
  | None => PCNotFound
  end.

(** ** [extract_archive] and the file name of [download_asset] *)

Definition ends_with (suffix s : string) : bool :=
  prefix (string_of_list_ascii (rev (list_ascii_of_string suffix)))
         (string_of_list_ascii (rev (list_ascii_of_string s))).

Inductive archive_kind := KZip | KTarGz | KUnknown.

(** The [endswith] tests, in source order. *)
Definition archive_kind_of (filepath : string) : archive_kind :=
  if ends_with ".zip" filepath then KZip
  else if ends_with ".tar.gz" filepath || ends_with ".tgz" filepath then KTarGz
  else KUnknown.

(** [set(after) - set(before)] as a list without duplicates. *)
Definition set_diff (after before : list string) : list string :=
  filter (fun x => negb (existsb (String.eqb x) before)) (nodup string_dec after).

Inductive extract_result :=
  | XSkipped
  | XDie (msg : string)
  | XNoNewDir
  | XNotADir (path : string)
  | XConfig (extracted_dir : string) (update : config_outcome).

(** [before] and [after] are the listings of [dest_dir] around the
    extraction; [unpack_ok] and [remove_ok] say whether [extractall] and
    [os.remove(filepath)] succeed; [order] is the iteration order of the
    set [after - before], which Python does not fix. *)
Definition extract_archive (filepath dest_dir : string) (before after : list string)
    (unpack_ok remove_ok : bool) (order : list string -> list string)
    (isdir : string -> bool) (cfg : string -> config_file) : extract_result :=
  match archive_kind_of filepath with
  | KUnknown => XSkipped
  | KZip | KTarGz =>
      if negb (unpack_ok && remove_ok) then XDie "Extraction failed"
      else
        match order (set_diff after before) with
        | [] => XNoNewDir
        | d :: _ =>
            let extracted_dir := posix_join dest_dir d in
            if isdir extracted_dir
            then XConfig extracted_dir
                   (update_config_json (cfg (posix_join extracted_dir "config.json")))
            else XNotADir extracted_dir
        end
  end.

(** [download_asset]'s target: [url_path] is [urlparse(url).path]; the
    file name is its basename, joined to [dest_dir]. *)
Definition download_target (dest_dir url_path : string) : string * string :=
  let filename := basename url_path in
  (filename, posix_join dest_dir filename).

(** ** The choice of the download in the main program *)

Inductive selection :=
  | SelDie (msg : string)
  | SelAsset (chosen : asset)
  | SelEOF.

(** [resolve] followed by the prompt of [choose_asset(matches)] on the
    user's [inputs]; [SelEOF] is the [EOFError] of [input]. *)
Definition select_asset (os_name arch : string) (assets : list asset) (inputs : list string)
    : selection :=
  match resolve assets os_name arch with
  | RDie msg => SelDie msg
  | RChosen a => SelAsset a
  | RPrompt matches =>
      match choose_asset matches inputs with
      | Some a => SelAsset a
      | None => SelEOF
      end
  end.

(** The character before position [pre] of a text whose previous
    character, before [pre], is [prev]: what [\b] looks at. *)
Definition last_before (prev : option ascii) (pre : list ascii) : option ascii :=
  match rev pre with [] => prev | c :: _ => Some c end.

(** One step of [int()]'s decimal accumulation. *)
Definition digit_step (acc : Z) (c : ascii) : Z := (acc * 10 + digit_value c)%Z.

(** ** Comparison points *)

(** [l1] is [l2] with some elements left out, the rest in order. *)
Inductive subseq {A} : list A -> list A -> Prop :=
  | subseq_nil : subseq [] []
  | subseq_keep x l1 l2 : subseq l1 l2 -> subseq (x :: l1) (x :: l2)
  | subseq_drop x l1 l2 : subseq l1 l2 -> subseq l1 (x :: l2).

(** [str.split('.')] on a list of characters. *)
Fixpoint split_dot (l : list ascii) : list (list ascii) :=
  match l with
  | [] => [[]]
  | c :: l' =>
      if Ascii.eqb c "." then [] :: split_dot l'
      else match split_dot l' with
           | h :: t => (c :: h) :: t
           | [] => [[c]]
           end
  end.

Definition component_ok (l : list ascii) : bool :=
  match l with [] => false | _ => forallb is_digit l end.

Definition digits_value (l : list ascii) : nat :=
  fold_left (fun acc c => acc * 10 + (nat_of_ascii c - 48))%nat l 0%nat.

(** Modelled from the spec (section 4.3, the Version Comparator, which
    has no counterpart in the source): a [VersionString] is three
    dot-separated non-negative integers; anything else is
    [MalformedVersionString], here [None]. *)
Definition version_triple_spec (s : string) : option (nat * nat * nat) :=
  match split_dot (list_ascii_of_string s) with
  | [a; b; c] =>
      if component_ok a && component_ok b && component_ok c
      then Some (digits_value a, digits_value b, digits_value c)
      else None
  | _ => None
  end.

(** Modelled from the spec: [isOlder] compares the two triples
    lexicographically; [None] is [MalformedVersionString]. *)
Definition isOlder_spec (installed latest : string) : option bool :=
  match version_triple_spec installed, version_triple_spec latest with
  | Some (a1, b1, c1), Some (a2, b2, c2) =>
      Some ((a1 <? a2) || ((a1 =? a2) && ((b1 <? b2) || ((b1 =? b2) && (c1 <? c2)))))%nat
  | _, _ => None
  end.

(** Assets named as in the spec's resolver example, published for
    [linux-x64]. *)
Definition jammy_asset : asset :=
  mk_asset "xmrig-jammy-x64.tar.gz" "linux-x64" "xmrig-jammy-x64.tar.gz"
    "https://example.org/xmrig-jammy-x64.tar.gz" 0.
Definition static_asset : asset :=
  mk_asset "xmrig-static-x64.tar.gz" "linux-x64" "xmrig-static-x64.tar.gz"
    "https://example.org/xmrig-static-x64.tar.gz" 0.

(** A generic 64-bit statically linked build, tagged [static-x64]. *)
Definition linux_static_asset : asset :=
  mk_asset "xmrig-6.22.2-static-x64.tar.gz" "static-x64"
    "xmrig-6.22.2-static-x64.tar.gz"
    "https://example.org/xmrig-6.22.2-static-x64.tar.gz" 0.

(** An asset whose [os] tag happens to read [unknown-x64]. *)
Definition unknown_os_asset : asset :=
  mk_asset "xmrig-unknown-x64.tar.gz" "unknown-x64" "xmrig-unknown-x64.tar.gz"
    "https://example.org/xmrig-unknown-x64.tar.gz" 0.

(** The fields [find_matching_assets] reads. *)
Definition asset_key (a : asset) : string * string := (a_os a, a_id a).

(** The release API answering every request with a release whose
    version is 6.25.0. *)
Definition api_latest_6_25_0 : string -> http_reply :=
  fun _ => Reply200 (Some (JObj [("version", JStr "6.25.0")])).

(** ** Lemmas about the string primitives *)

Lemma prefix_app : forall s t, prefix s (s ++ t) = true.
Proof.
  induction s as [|c s IH]; intros t; simpl.
  - destruct t; reflexivity.
  - destruct (ascii_dec c c) as [_|n]; [apply IH | contradiction].
Qed.

Lemma contains_prefix : forall n h, prefix n h = true -> contains n h = true.
Proof. intros n h H. destruct h; cbn [contains]; rewrite H; reflexivity. Qed.

Lemma prefix_lower : forall n h, lower n = n -> prefix n h = true -> prefix n (lower h) = true.
Proof.
  induction n as [|c n IH]; intros h Hn Hp.
  - destruct (lower h); reflexivity.
  - destruct h as [|d h]; simpl in *; [discriminate|].
    injection Hn as Hc Hn.
    destruct (ascii_dec c d) as [<-|]; [|discriminate].
    rewrite Hc. destruct (ascii_dec c c) as [_|n']; [|contradiction].
    apply IH; assumption.
Qed.

Lemma contains_lower : forall n h, lower n = n -> contains n h = true -> contains n (lower h) = true.
Proof.
  intros n h Hn. induction h as [|d h IH]; intros H.
  - exact H.
  - change (lower (String d h)) with (String (ascii_lower d) (lower h)).
    cbn [contains] in *.
    apply orb_true_iff in H as [H|H]; apply orb_true_iff; [left | right].
    + exact (prefix_lower n (String d h) Hn H).
    + exact (IH H).
Qed.

(** ** Lemmas about the asset filter *)

Lemma filter_subseq {A} (f : A -> bool) : forall l, subseq (filter f l) l.
Proof.
  induction l as [|x l IH]; simpl.
  - constructor.
  - destruct (f x); constructor; exact IH.
Qed.

Lemma filter_all_false {A} (f : A -> bool) :
  forall l, (forall x, In x l -> f x = false) -> filter f l = [].
Proof.
  induction l as [|x l IH]; intros H; simpl; [reflexivity|].
  rewrite (H x (or_introl eq_refl)). apply IH. intros y Hy. apply H. right. exact Hy.
Qed.

Lemma resolve_cases : forall assets os_name arch,
  (find_matching_assets assets os_name arch = [] ->
     resolve assets os_name arch = RDie "No matching assets found.")
  /\ (forall a, resolve assets os_name arch = RChosen a ->
       find_matching_assets assets os_name arch = [a])
  /\ (forall ms, resolve assets os_name arch = RPrompt ms ->
       ms = find_matching_assets assets os_name arch /\ 2 <= length ms).
Proof.
  intros assets os_name arch. unfold resolve.
  destruct (find_matching_assets assets os_name arch) as [|x [|y l]];
    (split; [|split]).
  - reflexivity.
  - intros; discriminate.
  - intros; discriminate.
  - intros; discriminate.
  - intros a H; injection H as <-; reflexivity.
  - intros; discriminate.
  - intros; discriminate.
  - intros; discriminate.
  - intros ms H; injection H as <-; split; [reflexivity | simpl; lia].
Qed.

Lemma os_map_not_unknown : forall k v, assoc_get k os_map = Some v -> v <> "unknown".
Proof.
  intros k v H. unfold os_map in H. simpl in H.
  destruct (String.eqb k "linux"); [injection H as <-; discriminate|].
  destruct (String.eqb k "darwin"); [injection H as <-; discriminate|].
  destruct (String.eqb k "windows"); [injection H as <-; discriminate|].
  discriminate.
Qed.

Lemma unknown_os_no_match : forall arch a,
  contains "unknown" (lower (a_os a)) = false ->
  contains "unknown" (lower (a_id a)) = false ->
  asset_matches "unknown" arch a = false.
Proof.
  intros arch a Hos Hid. unfold asset_matches.
  rewrite Hos, Hid. simpl andb. rewrite !orb_false_r.
  destruct (String.eqb_spec ("unknown" ++ "-" ++ arch) (lower (a_os a))) as [E|_].
  { rewrite <- E, contains_prefix in Hos by apply prefix_app. discriminate. }
  destruct (String.eqb_spec ("unknown" ++ "-" ++ arch) (lower (a_id a))) as [E|_].
  { rewrite <- E, contains_prefix in Hid by apply prefix_app. discriminate. }
  reflexivity.
Qed.

(** ** Asset resolution (claims C1, C4, C5, C6, C9) *)

(** C1, counterexample: the spec's example assets, both tagged
    [linux-x64], on a Linux x86_64 host.  The program has no codename and
    no fragment list; both assets match, so the jammy asset is not
    selected and the user is asked to choose between the two. *)
Lemma C1_jammy_not_selected :
  resolve_for_host "Linux" "x86_64" [jammy_asset; static_asset]
    = RPrompt [jammy_asset; static_asset]
  /\ resolve_for_host "Linux" "x86_64" [jammy_asset; static_asset] <> RChosen jammy_asset.
Proof.
  split.
  - vm_compute. reflexivity.
  - vm_compute. discriminate.
Qed.

(** C1 (amended): [find_matching_assets] keeps, in their original order,
    exactly the assets satisfying the comprehension's condition on their
    lowercased [os] and [id]; [main] takes the single match when there is
    exactly one and otherwise prompts with all of them. *)
Theorem C1_resolve_filters_in_order : forall assets os_name arch,
  (forall a, In a (find_matching_assets assets os_name arch)
             <-> In a assets /\ asset_matches os_name arch a = true)
  /\ subseq (find_matching_assets assets os_name arch) assets
  /\ (find_matching_assets assets os_name arch = []
        <-> resolve assets os_name arch = RDie "No matching assets found.")
  /\ (forall a, find_matching_assets assets os_name arch = [a]
        <-> resolve assets os_name arch = RChosen a)
  /\ (forall ms, ms = find_matching_assets assets os_name arch /\ 2 <= length ms
        <-> resolve assets os_name arch = RPrompt ms).
Proof.
  intros assets os_name arch.
  split; [|split; [|split; [|split]]].
  - intros a. unfold find_matching_assets. apply filter_In.
  - apply filter_subseq.
  - unfold resolve. destruct (find_matching_assets assets os_name arch) as [|x [|y l]];
      split; intros H; try reflexivity; discriminate.
  - intros a. unfold resolve.
    destruct (find_matching_assets assets os_name arch) as [|x [|y l]];
      split; intros H; try discriminate; congruence.
  - intros ms. unfold resolve.
    destruct (find_matching_assets assets os_name arch) as [|x [|y l]]; split.
    + intros [-> Hl]. simpl in Hl. lia.
    + discriminate.
    + intros [-> Hl]. simpl in Hl. lia.
    + discriminate.
    + intros [-> _]. reflexivity.
    + intros H. injection H as <-. split; [reflexivity | simpl; lia].
Qed.

Lemma C1_resolve_filters_in_order_witness :
  find_matching_assets [jammy_asset; static_asset] "linux" "x64" = [jammy_asset; static_asset]
  /\ resolve [jammy_asset; static_asset] "linux" "x64" = RPrompt [jammy_asset; static_asset]
  /\ [jammy_asset; static_asset] = find_matching_assets [jammy_asset; static_asset] "linux" "x64"
  /\ 2 <= length [jammy_asset; static_asset].
Proof.
  split; [vm_compute; reflexivity|].
  split; [vm_compute; reflexivity|].
  destruct (C1_resolve_filters_in_order [jammy_asset; static_asset] "linux" "x64")
    as (_ & _ & _ & _ & H).
  apply (proj2 (H _)). vm_compute. reflexivity.
Defined.

(** C4, counterexample: on FreeBSD the OS maps to [unknown], yet [main]
    goes on to match assets and selects one whose [os] tag reads
    [unknown-x64]; no UnsupportedPlatform failure is raised. *)
Lemma C4_unknown_os_still_resolves :
  detect_system "FreeBSD" "amd64" = ("unknown", "x64")
  /\ resolve_for_host "FreeBSD" "amd64" [unknown_os_asset] = RChosen unknown_os_asset.
Proof. split; vm_compute; reflexivity. Qed.

(** C4 (amended): an unrecognised OS name maps to [unknown], and [main]
    then runs the asset filter with [unknown] like any other OS name; it
    ends in "No matching assets found." (not a separate platform error)
    whenever no asset's lowercased [os] or [id] contains [unknown]. *)
Theorem C4_unknown_os_filtered_like_others : forall system machine assets,
  (fst (detect_system system machine) = "unknown"
     <-> assoc_get (lower system) os_map = None)
  /\ (assoc_get (lower system) os_map = None ->
        resolve_for_host system machine assets
          = resolve assets "unknown" (snd (detect_system system machine))
        /\ ((forall a, In a assets ->
               contains "unknown" (lower (a_os a)) = false
               /\ contains "unknown" (lower (a_id a)) = false) ->
            resolve_for_host system machine assets = RDie "No matching assets found.")).
Proof.
  intros system machine assets.
  unfold resolve_for_host, detect_system, dict_get_default. cbn [fst snd].
  split.
  - destruct (assoc_get (lower system) os_map) as [v|] eqn:E; [|split; reflexivity].
    split; [|discriminate]. intros Hv. exfalso. exact (os_map_not_unknown _ _ E Hv).
  - intros E. rewrite E. split; [reflexivity|].
    intros Hall. apply resolve_cases. unfold find_matching_assets.
    apply filter_all_false. intros a Ha. destruct (Hall a Ha) as [Hos Hid].
    apply unknown_os_no_match; assumption.
Qed.

Lemma C4_unknown_os_filtered_like_others_witness :
  assoc_get (lower "FreeBSD") os_map = None
  /\ resolve_for_host "FreeBSD" "amd64" [jammy_asset]
     = RDie "No matching assets found.".
Proof.
  split; [reflexivity|].
  destruct (C4_unknown_os_filtered_like_others "FreeBSD" "amd64" [jammy_asset]) as [_ H].
  apply H; [reflexivity|].
  intros a [<-|[]]. split; vm_compute; reflexivity.
Defined.

(** C5: with an empty asset list, whatever the host, [main] stops with
    "No matching assets found." instead of selecting anything. *)
Theorem C5_empty_assets_no_match : forall system machine,
  resolve_for_host system machine [] = RDie "No matching assets found."
  /\ forall os_name arch, resolve [] os_name arch = RDie "No matching assets found.".
Proof.
  intros system machine. split.
  - unfold resolve_for_host. destruct (detect_system system machine). reflexivity.
  - reflexivity.
Qed.

(** C6, counterexample: on Linux x86_64 a generic 64-bit static build is
    offered but its tags do not match the filter; no fallback picks it and
    [main] aborts. *)
Lemma C6_no_static_fallback :
  resolve_for_host "Linux" "x86_64" [linux_static_asset] = RDie "No matching assets found.".
Proof. vm_compute. reflexivity. Qed.

(** C6 (amended): there is no fallback of any kind: when the filter keeps
    nothing [main] aborts, and every asset it selects or offers satisfies
    the filter's condition. *)
Theorem C6_no_fallback : forall assets os_name arch,
  (find_matching_assets assets os_name arch = [] ->
     resolve assets os_name arch = RDie "No matching assets found.")
  /\ (forall a, resolve assets os_name arch = RChosen a ->
        In a assets /\ asset_matches os_name arch a = true)
  /\ (forall ms, resolve assets os_name arch = RPrompt ms ->
        forall a, In a ms -> In a assets /\ asset_matches os_name arch a = true).
Proof.
  intros assets os_name arch.
  destruct (resolve_cases assets os_name arch) as (H1 & H2 & H3).
  split; [exact H1|split].
  - intros a Ha. apply H2 in Ha. apply (filter_In (asset_matches os_name arch)).
    unfold find_matching_assets in Ha. rewrite Ha. left. reflexivity.
  - intros ms Hms a Ha. destruct (H3 ms Hms) as [-> _].
    apply (filter_In (asset_matches os_name arch)). exact Ha.
Qed.

Lemma C6_no_fallback_witness :
  find_matching_assets [linux_static_asset] "linux" "x64" = []
  /\ resolve [linux_static_asset] "linux" "x64" = RDie "No matching assets found.".
Proof.
  assert (E : find_matching_assets [linux_static_asset] "linux" "x64" = [])
    by (vm_compute; reflexivity).
  split; [exact E|].
  destruct (C6_no_fallback [linux_static_asset] "linux" "x64") as [H _].
  apply H. exact E.
Defined.

(** C9: [find_matching_assets] is a function of its arguments alone: two
    calls on the same input agree, the result is drawn from the input list
    in order, and it depends on the assets only through their [os] and
    [id] fields. *)
Theorem C9_find_matching_assets_pure : forall assets os_name arch,
  find_matching_assets assets os_name arch = find_matching_assets assets os_name arch
  /\ resolve assets os_name arch = resolve assets os_name arch
  /\ subseq (find_matching_assets assets os_name arch) assets
  /\ (forall assets', map asset_key assets = map asset_key assets' ->
        map asset_key (find_matching_assets assets os_name arch)
        = map asset_key (find_matching_assets assets' os_name arch)).
Proof.
  intros assets os_name arch.
  split; [reflexivity|]. split; [reflexivity|]. split; [apply filter_subseq|].
  unfold find_matching_assets.
  induction assets as [|a l IH]; intros [|a' l'] Hk; try discriminate.
  - reflexivity.
  - simpl in Hk. injection Hk as Hos Hid Hl.
    assert (Hm : asset_matches os_name arch a = asset_matches os_name arch a')
      by (unfold asset_matches; rewrite Hos, Hid; reflexivity).
    simpl. rewrite Hm. destruct (asset_matches os_name arch a').
    + simpl. f_equal; [unfold asset_key; congruence | exact (IH l' Hl)].
    + exact (IH l' Hl).
Qed.

Lemma C9_find_matching_assets_pure_witness :
  map asset_key (find_matching_assets [jammy_asset] "linux" "x64")
  = map asset_key (find_matching_assets
       [mk_asset "xmrig-jammy-x64.tar.gz" "linux-x64" "other" "other-url" 1] "linux" "x64").
Proof.
  destruct (C9_find_matching_assets_pure [jammy_asset] "linux" "x64") as (_ & _ & _ & H).
  apply H. reflexivity.
Defined.

(** ** Host profiling (claims C7, C8) *)

(** C7: a machine string that is no key of [arch_map] after lowercasing
    but contains [arm] maps to [arm32]. *)
Theorem C7_arm_fallback : forall system machine,
  assoc_get (lower machine) arch_map = None ->
  contains "arm" machine = true ->
  snd (detect_system system machine) = "arm32".
Proof.
  intros system machine Hkey Harm.
  unfold detect_system, dict_get_default. cbn [snd]. rewrite Hkey.
  rewrite (contains_lower "arm" machine eq_refl Harm). reflexivity.
Qed.

Lemma C7_arm_fallback_witness :
  assoc_get (lower "armv8l") arch_map = None
  /\ contains "arm" "armv8l" = true
  /\ snd (detect_system "Linux" "armv8l") = "arm32".
Proof.
  split; [reflexivity|]. split; [reflexivity|].
  apply C7_arm_fallback; reflexivity.
Defined.

(** C8: the recognised names, in any letter case, map as in the table:
    x86_64/amd64 to x64, i386/i686 to x86, aarch64/arm64 to arm64,
    armv7l/armv6l to arm32, and linux/darwin/windows to linux/macos/windows. *)
Theorem C8_recognized_names : forall system machine,
  ((lower machine = "x86_64" \/ lower machine = "amd64") ->
     snd (detect_system system machine) = "x64")
  /\ ((lower machine = "i386" \/ lower machine = "i686") ->
     snd (detect_system system machine) = "x86")
  /\ ((lower machine = "aarch64" \/ lower machine = "arm64") ->
     snd (detect_system system machine) = "arm64")
  /\ ((lower machine = "armv7l" \/ lower machine = "armv6l") ->
     snd (detect_system system machine) = "arm32")
  /\ (lower system = "linux" -> fst (detect_system system machine) = "linux")
  /\ (lower system = "darwin" -> fst (detect_system system machine) = "macos")
  /\ (lower system = "windows" -> fst (detect_system system machine) = "windows").
Proof.
  intros system machine. unfold detect_system, dict_get_default. cbn [fst snd].
  repeat split; intros H; try destruct H as [H|H]; rewrite H; reflexivity.
Qed.

Lemma C8_recognized_names_witness :
  snd (detect_system "Darwin" "AMD64") = "x64"
  /\ fst (detect_system "Darwin" "AMD64") = "macos".
Proof.
  destruct (C8_recognized_names "Darwin" "AMD64") as (Hx64 & _ & _ & _ & _ & Hmac & _).
  split; [apply Hx64; right; reflexivity | apply Hmac; reflexivity].
Defined.

(** ** Version parsing (claims C2, C3) *)

Lemma span_digits_spec : forall l d r,
  span_digits l = (d, r) -> forallb is_digit d = true /\ l = (d ++ r)%list.
Proof.
  induction l as [|c l IH]; intros d r H; simpl in H.
  - injection H as <- <-. split; reflexivity.
  - destruct (is_digit c) eqn:Dc.
    + destruct (span_digits l) as [d' r'] eqn:E. injection H as <- <-.
      destruct (IH d' r' eq_refl) as [D ->]. simpl. rewrite Dc, D. split; reflexivity.
    + injection H as <- <-. split; reflexivity.
Qed.

Lemma component_ok_digits : forall d, component_ok d = true -> forallb is_digit d = true.
Proof. intros [|c d] H; [discriminate | exact H]. Qed.

Lemma match_version_at_shape : forall prev l m,
  match_version_at prev l = Some m ->
  exists d1 d2 d3, m = (d1 ++ "."%char :: d2 ++ "."%char :: d3)%list
    /\ component_ok d1 = true /\ component_ok d2 = true /\ component_ok d3 = true.
Proof.
  intros prev l m H. unfold match_version_at in H.
  destruct (negb (boundary_before prev)); [discriminate|].
  destruct (span_digits l) as [d1 r1] eqn:E1. apply span_digits_spec in E1 as [D1 _].
  destruct d1 as [|x1 d1]; [discriminate|]. destruct r1 as [|c1 r1]; [discriminate|].
  destruct (negb (c1 =? ".")%char); [discriminate|].
  destruct (span_digits r1) as [d2 r2] eqn:E2. apply span_digits_spec in E2 as [D2 _].
  destruct d2 as [|x2 d2]; [discriminate|]. destruct r2 as [|c2 r2]; [discriminate|].
  destruct (negb (c2 =? ".")%char); [discriminate|].
  destruct (span_digits r2) as [d3 r3] eqn:E3. apply span_digits_spec in E3 as [D3 _].
  destruct d3 as [|x3 d3]; [discriminate|].
  destruct (boundary_after r3); [|discriminate].
  injection H as <-. exists (x1 :: d1), (x2 :: d2), (x3 :: d3).
  split; [reflexivity|]. split; [exact D1|]. split; [exact D2 | exact D3].
Qed.

Lemma search_version_shape : forall l prev m,
  search_version prev l = Some m ->
  exists d1 d2 d3, m = (d1 ++ "."%char :: d2 ++ "."%char :: d3)%list
    /\ component_ok d1 = true /\ component_ok d2 = true /\ component_ok d3 = true.
Proof.
  induction l as [|c l IH]; intros prev m H; simpl in H;
    destruct (match_version_at prev _) eqn:E.
  - injection H as <-. exact (match_version_at_shape _ _ _ E).
  - discriminate.
  - injection H as <-. exact (match_version_at_shape _ _ _ E).
  - exact (IH (Some c) m H).
Qed.

Lemma digit_not_dot : forall c, is_digit c = true -> (c =? ".")%char = false.
Proof.
  intros c H. destruct (Ascii.eqb_spec c "."); [subst; discriminate | reflexivity].
Qed.

Lemma split_dot_digits_dot : forall d rest,
  forallb is_digit d = true -> split_dot (d ++ "."%char :: rest)%list = d :: split_dot rest.
Proof.
  induction d as [|c d IH]; intros rest H; [reflexivity|].
  simpl in H. apply andb_true_iff in H as [Hc Hd].
  simpl. rewrite (digit_not_dot c Hc), (IH rest Hd). reflexivity.
Qed.

Lemma split_dot_digits : forall d, forallb is_digit d = true -> split_dot d = [d].
Proof.
  induction d as [|c d IH]; intros H; [reflexivity|].
  simpl in H. apply andb_true_iff in H as [Hc Hd].
  simpl. rewrite (digit_not_dot c Hc), (IH Hd). reflexivity.
Qed.

(** C3, counterexample: a four-component version is not reported as
    malformed; [parse_xmrig_version] cuts it down to its first three
    components. *)
Lemma C3_four_components_accepted :
  parse_xmrig_version "6.25.0.1" = Some "6.25.0"
  /\ version_triple_spec "6.25.0.1" = None.
Proof. split; vm_compute; reflexivity. Qed.

(** C3 (amended): the only version the program parses is the installed
    one; every version [parse_xmrig_version] returns is a well-formed
    [N.N.N] triple, and output without such a triple (for instance
    [6.25]) takes the [die] branch. *)
Theorem C3_parsed_version_well_formed :
  (forall output v, parse_xmrig_version output = Some v -> version_triple_spec v <> None)
  /\ parse_xmrig_version "6.25" = None.
Proof.
  split; [|vm_compute; reflexivity].
  intros output v H. unfold parse_xmrig_version in H.
  destruct (search_version None (list_ascii_of_string output)) as [m|] eqn:E; [|discriminate].
  injection H as <-.
  destruct (search_version_shape _ _ _ E) as (d1 & d2 & d3 & -> & H1 & H2 & H3).
  unfold version_triple_spec. rewrite list_ascii_of_string_of_list_ascii.
  rewrite (split_dot_digits_dot d1 _ (component_ok_digits d1 H1)).
  rewrite (split_dot_digits_dot d2 _ (component_ok_digits d2 H2)).
  rewrite (split_dot_digits d3 (component_ok_digits d3 H3)).
  rewrite H1, H2, H3. discriminate.
Qed.

Lemma C3_parsed_version_well_formed_witness :
  parse_xmrig_version "XMRig 6.21.0 built on Jan 1" = Some "6.21.0"
  /\ version_triple_spec "6.21.0" <> None.
Proof.
  assert (E : parse_xmrig_version "XMRig 6.21.0 built on Jan 1" = Some "6.21.0")
    by (vm_compute; reflexivity).
  split; [exact E|].
  exact (proj1 C3_parsed_version_well_formed _ _ E).
Defined.

(** C2, counterexample: the program compares nothing itself.  With
    6.25.1 installed and the API answering with 6.25.0, [main] goes on to
    update, while the spec's comparator says 6.25.1 is not older. *)
Lemma C2_no_local_comparison :
  update_step api_latest_6_25_0 "6.25.1" = Proceed (JObj [("version", JStr "6.25.0")])
  /\ isOlder_spec "6.25.1" "6.25.0" = Some false.
Proof. split; vm_compute; reflexivity. Qed.

(** C2 (amended): whether to update is decided by the API's reply to
    [version_gt=<installed>] alone: a truthy JSON body means update, a
    falsy JSON body or a 404 whose [error] is [UPDATE_NOT_FOUND] means up
    to date, anything else aborts. *)
Theorem C2_update_decided_by_api : forall server version,
  (forall server' version', server' (update_url version') = server (update_url version) ->
     update_step server' version' = update_step server version)
  /\ (forall j, update_step server version = Proceed j
        <-> server (update_url version) = Reply200 (Some j) /\ json_truthy j = true)
  /\ (update_step server version = ExitUpToDate
        <-> (exists j, server (update_url version) = Reply200 (Some j) /\ json_truthy j = false)
            \/ (exists data, server (update_url version) = ReplyHTTPError 404 (Some (JObj data))
                  /\ json_str_eqb (assoc_get "error" data) "UPDATE_NOT_FOUND" = true)).
Proof.
  intros server version. split.
  { intros server' version' E. unfold update_step, check_for_update. rewrite E. reflexivity. }
  unfold update_step, check_for_update.
  generalize (server (update_url version)) as r. intros r.
  destruct r as [[j|]|code [[| | | | |data]|]|];
    try (destruct (Z.eqb_spec code 404) as [->|Hc]);
    try (destruct (json_truthy j) eqn:T);
    try (destruct (json_str_eqb (assoc_get "error" data) "UPDATE_NOT_FOUND") eqn:T);
    (split; [intros j'; split | split]);
    intros H;
    repeat match goal with
    | H : exists _, _ |- _ => destruct H
    | H : _ /\ _ |- _ => destruct H
    | H : _ \/ _ |- _ => destruct H
    end;
    try discriminate; try congruence.
  - injection H as <-. split; [reflexivity | exact T].
  - left. exists j. split; [reflexivity | exact T].
  - right. exists data. split; [reflexivity | exact T].
Qed.

Lemma C2_update_decided_by_api_witness :
  update_step api_latest_6_25_0 "6.25.1" = Proceed (JObj [("version", JStr "6.25.0")])
  /\ update_step api_latest_6_25_0 "6.25.0" = update_step api_latest_6_25_0 "6.25.1".
Proof.
  destruct (C2_update_decided_by_api api_latest_6_25_0 "6.25.1") as (Hsame & Hproc & _).
  split.
  - apply Hproc. split; reflexivity.
  - apply Hsame. reflexivity.
Defined.

(** ** The configuration rewrite (claim C10) *)

Lemma assoc_get_dict_set_same : forall k v d, assoc_get k (dict_set k v d) = Some v.
Proof.
  intros k v. induction d as [|[k' v'] d IH]; simpl.
  - rewrite String.eqb_refl. reflexivity.
  - destruct (String.eqb k k') eqn:E; simpl.
    + rewrite String.eqb_refl. reflexivity.
    + rewrite E. exact IH.
Qed.

Lemma assoc_get_dict_set_other : forall k k' v d,
  k <> k' -> assoc_get k (dict_set k' v d) = assoc_get k d.
Proof.
  intros k k' v d Hne. induction d as [|[k'' v''] d IH]; simpl.
  - rewrite (proj2 (String.eqb_neq k k') Hne). reflexivity.
  - destruct (String.eqb k' k'') eqn:E; simpl.
    + apply String.eqb_eq in E. subst k''.
      rewrite (proj2 (String.eqb_neq k k') Hne). reflexivity.
    + destruct (String.eqb k k''); [reflexivity | exact IH].
Qed.

(** C10: on a configuration object whose [pools] is a non-empty list, the
    rewrite sets [url], [user], [tls] and [tls-fingerprint] of the first
    pool to the fixed values and leaves every other key of that pool, the
    other pools and every other top-level key as they were (a first pool
    that is not an object makes the rewrite fail, leaving the file as it
    was); when [pools] is absent, not a list or empty, the configuration
    is written back unchanged. *)
Theorem C10_config_rewrite_frame : forall kvs,
  (forall pool rest, assoc_get "pools" kvs = Some (JArr (JObj pool :: rest)) ->
     exists kvs' pool',
       update_config_json (Parsed (JObj kvs)) = CfgWritten (JObj kvs')
       /\ (forall k, k <> "pools" -> assoc_get k kvs' = assoc_get k kvs)
       /\ assoc_get "pools" kvs' = Some (JArr (JObj pool' :: rest))
       /\ assoc_get "url" pool' = Some (JStr pool_url)
       /\ assoc_get "user" pool' = Some (JStr pool_user)
       /\ assoc_get "tls" pool' = Some (JBool true)
       /\ assoc_get "tls-fingerprint" pool' = Some (JStr pool_fingerprint)
       /\ (forall k, ~ In k ["url"; "user"; "tls"; "tls-fingerprint"] ->
             assoc_get k pool' = assoc_get k pool))
  /\ (forall first rest, assoc_get "pools" kvs = Some (JArr (first :: rest)) ->
        (forall pool, first <> JObj pool) ->
        update_config_json (Parsed (JObj kvs)) = CfgFailed)
  /\ ((forall first rest, assoc_get "pools" kvs <> Some (JArr (first :: rest))) ->
        update_config_json (Parsed (JObj kvs)) = CfgWritten (JObj kvs)).
Proof.
  intros kvs. split; [|split].
  - intros pool rest Hp.
    exists (dict_set "pools" (JArr (JObj (rewrite_pool pool) :: rest)) kvs), (rewrite_pool pool).
    unfold update_config_json. rewrite Hp.
    split; [reflexivity|]. split.
    { intros k Hk. apply assoc_get_dict_set_other. exact Hk. }
    split; [apply assoc_get_dict_set_same|].
    unfold rewrite_pool.
    split; [rewrite !assoc_get_dict_set_other by discriminate; apply assoc_get_dict_set_same|].
    split; [rewrite !assoc_get_dict_set_other by discriminate; apply assoc_get_dict_set_same|].
    split; [rewrite !assoc_get_dict_set_other by discriminate; apply assoc_get_dict_set_same|].
    split; [apply assoc_get_dict_set_same|].
    intros k Hk.
    rewrite !assoc_get_dict_set_other; [reflexivity | ..];
      intros ->; apply Hk; simpl; tauto.
  - intros first rest Hp Hnot. unfold update_config_json. rewrite Hp.
    destruct first as [| | | | |pool]; try reflexivity.
    exfalso. exact (Hnot pool eq_refl).
  - intros Hnone. unfold update_config_json.
    destruct (assoc_get "pools" kvs) as [[| | | |[|first rest]|]|] eqn:E; try reflexivity.
    exfalso. exact (Hnone first rest eq_refl).
Qed.

(** A configuration with one pool and an unrelated top-level key. *)
Lemma C10_config_rewrite_frame_witness :
  exists kvs' pool',
    update_config_json
      (Parsed (JObj [("donate-level", JNum 1);
                     ("pools", JArr [JObj [("url", JStr "pool.example:3333"); ("pass", JStr "x")]])]))
      = CfgWritten (JObj kvs')
    /\ assoc_get "donate-level" kvs' = Some (JNum 1)
    /\ assoc_get "pools" kvs' = Some (JArr [JObj pool'])
    /\ assoc_get "url" pool' = Some (JStr pool_url)
    /\ assoc_get "pass" pool' = Some (JStr "x").
Proof.
  destruct (C10_config_rewrite_frame
              [("donate-level", JNum 1);
               ("pools", JArr [JObj [("url", JStr "pool.example:3333"); ("pass", JStr "x")]])])
    as [H _].
  destruct (H [("url", JStr "pool.example:3333"); ("pass", JStr "x")] [] eq_refl)
    as (kvs' & pool' & Hw & Hk & Hp & Hu & _ & _ & _ & Hother).
  exists kvs', pool'.
  split; [exact Hw|]. split; [apply Hk; discriminate|]. split; [exact Hp|].
  split; [exact Hu|].
  rewrite Hother; [reflexivity|]. simpl. intuition discriminate.
Defined.

(** ** [choose_asset] *)

(** X1: whatever [choose_asset] returns is one of the listed matches. *)
Theorem choose_asset_member : forall matches inputs a,
  choose_asset matches inputs = Some a -> In a matches.
Proof.
  intros matches inputs a. induction inputs as [|s rest IH]; simpl; [discriminate|].
  destruct (py_int s) as [choice|]; [|exact IH].
  destruct ((1 <=? choice) && (choice <=? Z.of_nat (length matches)))%Z; [|exact IH].
  apply nth_error_In.
Qed.

Lemma choose_asset_member_witness :
  choose_asset [jammy_asset; static_asset] ["x"; "3"; " 2"] = Some static_asset
  /\ In static_asset [jammy_asset; static_asset].
Proof.
  assert (E : choose_asset [jammy_asset; static_asset] ["x"; "3"; " 2"] = Some static_asset)
    by (vm_compute; reflexivity).
  split; [exact E | exact (choose_asset_member _ _ _ E)].
Defined.

(** X2: input lines that are not an integer between 1 and the number of
    matches are skipped; when no line is, input runs out and
    [input()]'s [EOFError] escapes the loop. *)
Theorem choose_asset_skips_invalid : forall matches pre rest,
  (forall t, In t pre ->
     match py_int t with
     | Some k => ((1 <=? k) && (k <=? Z.of_nat (length matches)))%Z
     | None => false
     end = false) ->
  choose_asset matches (pre ++ rest) = choose_asset matches rest
  /\ choose_asset matches pre = None.
Proof.
  intros matches pre rest. induction pre as [|t pre IH]; intros Hinv; [split; reflexivity|].
  assert (Ht := Hinv t (or_introl eq_refl)).
  destruct IH as [IH1 IH2]; [intros u Hu; apply Hinv; right; exact Hu|].
  simpl. destruct (py_int t) as [k|].
  - rewrite Ht. split; assumption.
  - split; assumption.
Qed.

Lemma choose_asset_skips_invalid_witness :
  choose_asset [jammy_asset; static_asset] (["abc"; "0"; "3"; "1_"] ++ ["2"])
    = choose_asset [jammy_asset; static_asset] ["2"].
Proof.
  apply choose_asset_skips_invalid.
  intros t Ht. simpl in Ht.
  destruct Ht as [<-|[<-|[<-|[<-|[]]]]]; vm_compute; reflexivity.
Defined.

Lemma digits_us_plain : forall l acc,
  forallb is_digit l = true -> digits_us l acc = Some (fold_left digit_step l acc).
Proof.
  induction l as [|c l IH]; intros acc H; [reflexivity|].
  simpl in H. apply andb_true_iff in H as [Hc Hl].
  simpl. rewrite Hc. apply IH. exact Hl.
Qed.

Lemma digit_char_value : forall d, (d < 10)%nat -> digit_value (digit_char d) = Z.of_nat d.
Proof.
  intros d Hd. unfold digit_value, digit_char.
  rewrite Ascii.nat_ascii_embedding by lia. f_equal. lia.
Qed.

Lemma digit_char_digit : forall d, (d < 10)%nat -> is_digit (digit_char d) = true.
Proof.
  intros d Hd. unfold is_digit, digit_char.
  rewrite Ascii.nat_ascii_embedding by lia.
  apply andb_true_iff. split; apply Nat.leb_le; lia.
Qed.

Lemma decimal_aux_value : forall f n acc, (n < f)%nat ->
  fold_left digit_step (decimal_aux f n acc) 0%Z = fold_left digit_step acc (Z.of_nat n).
Proof.
  induction f as [|f IH]; intros n acc Hn; [lia|].
  cbn [decimal_aux]. destruct (Nat.ltb_spec n 10) as [Hlt|Hge].
  - cbn [fold_left].
    replace (digit_step 0 (digit_char n)) with (Z.of_nat n)
      by (unfold digit_step; rewrite digit_char_value by exact Hlt; lia).
    reflexivity.
  - rewrite IH by (apply Nat.lt_le_trans with n; [apply Nat.div_lt; lia | lia]).
    cbn [fold_left]. f_equal. unfold digit_step.
    rewrite digit_char_value by (apply Nat.mod_upper_bound; lia).
    assert (Hdm := Nat.div_mod_eq n 10). lia.
Qed.

Lemma decimal_aux_digits : forall f n acc,
  forallb is_digit acc = true -> forallb is_digit (decimal_aux f n acc) = true.
Proof.
  induction f as [|f IH]; intros n acc H; [exact H|].
  cbn [decimal_aux]. destruct (n <? 10)%nat eqn:E.
  - cbn [forallb]. rewrite digit_char_digit by (apply Nat.ltb_lt; exact E). exact H.
  - apply IH. cbn [forallb].
    rewrite digit_char_digit by (apply Nat.mod_upper_bound; lia). exact H.
Qed.

Lemma decimal_aux_cons : forall f n acc,
  acc <> [] \/ f <> O -> exists c l, decimal_aux f n acc = c :: l.
Proof.
  induction f as [|f IH]; intros n acc H.
  - destruct acc as [|c l]; [destruct H as [H|H]; contradiction|]. exists c, l. reflexivity.
  - cbn [decimal_aux]. destruct (n <? 10)%nat.
    + eexists; eexists; reflexivity.
    + apply IH. left. discriminate.
Qed.

Lemma digit_not_space : forall c, is_digit c = true -> py_isspace c = false.
Proof.
  intros c H. unfold is_digit, py_isspace in *.
  apply andb_true_iff in H as [H1 H2]. apply Nat.leb_le in H1, H2.
  destruct (Nat.leb_spec 9 (nat_of_ascii c)), (Nat.leb_spec (nat_of_ascii c) 13),
           (Nat.eqb_spec (nat_of_ascii c) 32);
    simpl; try reflexivity; lia.
Qed.

Lemma strip_digits : forall l, forallb is_digit l = true -> strip l = l.
Proof.
  assert (Hl : forall l, forallb is_digit l = true -> lstrip l = l).
  { intros [|c l] H; [reflexivity|]. simpl in H. apply andb_true_iff in H as [Hc _].
    simpl. rewrite digit_not_space by exact Hc. reflexivity. }
  intros l H. unfold strip. rewrite (Hl l H).
  rewrite Hl; [apply rev_involutive|].
  apply forallb_forall. intros x Hx. apply in_rev in Hx.
  exact (proj1 (forallb_forall _ _) H x Hx).
Qed.

Lemma digit_not_sign : forall c s, is_digit c = true -> is_digit s = false -> Ascii.eqb c s = false.
Proof.
  intros c s Hc Hs. destruct (Ascii.eqb_spec c s); [subst; congruence | reflexivity].
Qed.

Lemma py_int_py_str_nat : forall n, py_int (py_str_nat n) = Some (Z.of_nat n).
Proof.
  intros n. unfold py_int, py_str_nat. rewrite list_ascii_of_string_of_list_ascii.
  assert (Hd : forallb is_digit (decimal_aux (S n) n []) = true)
    by (apply decimal_aux_digits; reflexivity).
  rewrite strip_digits by exact Hd.
  destruct (decimal_aux_cons (S n) n [] (or_intror (Nat.neq_succ_0 n))) as (c & l & E).
  assert (Hv := decimal_aux_value (S n) n [] (Nat.lt_succ_diag_r n)).
  rewrite E in Hd, Hv |- *. simpl in Hd. apply andb_true_iff in Hd as [Hc Hl].
  rewrite (digit_not_sign c "+") by (exact Hc || reflexivity).
  rewrite (digit_not_sign c "-") by (exact Hc || reflexivity).
  simpl. rewrite Hc, digits_us_plain by exact Hl.
  simpl in Hv. rewrite <- Hv. reflexivity.
Qed.

(** X3: typing back the label [[i]] that [choose_asset] prints for the
    i-th match selects exactly that match. *)
Theorem choose_asset_label_roundtrip : forall matches i rest,
  (1 <= i <= length matches)%nat ->
  exists a, nth_error matches (i - 1) = Some a
            /\ choose_asset matches (py_str_nat i :: rest) = Some a.
Proof.
  intros matches i rest Hi. simpl. rewrite py_int_py_str_nat.
  replace ((1 <=? Z.of_nat i) && (Z.of_nat i <=? Z.of_nat (length matches)))%Z with true
    by (symmetry; apply andb_true_iff; split; apply Z.leb_le; lia).
  replace (Z.to_nat (Z.of_nat i - 1)) with (i - 1)%nat by lia.
  destruct (nth_error matches (i - 1)) as [a|] eqn:E.
  - exists a. split; reflexivity.
  - apply nth_error_None in E. lia.
Qed.

Lemma choose_asset_label_roundtrip_witness :
  exists a, nth_error [jammy_asset; static_asset] (2 - 1) = Some a
            /\ choose_asset [jammy_asset; static_asset] (py_str_nat 2 :: []) = Some a.
Proof. apply choose_asset_label_roundtrip. simpl. lia. Defined.

(** ** The directory walks *)

Lemma first_some_app {R} (step : string -> option R) : forall l1 l2,
  first_some step (l1 ++ l2)
  = match first_some step l1 with Some r => Some r | None => first_some step l2 end.
Proof.
  induction l1 as [|p l1 IH]; intros l2; [reflexivity|].
  simpl. destruct (step p); [reflexivity | apply IH].
Qed.

Lemma walk_files_flat {R} (sel : string -> bool) (step : string -> option R) : forall root files,
  walk_files sel step root files = first_some step (map (posix_join root) (filter sel files)).
Proof.
  intros root. induction files as [|name files IH]; [reflexivity|].
  simpl. destruct (sel name); simpl; [destruct (step (posix_join root name))|]; auto.
Qed.

Lemma walk_first_flat {R} (sel : string -> bool) (step : string -> option R) : forall walk,
  walk_first sel step walk = first_some step (walk_paths sel walk).
Proof.
  induction walk as [|[root files] walk IH]; [reflexivity|].
  simpl. rewrite walk_files_flat, first_some_app, IH. reflexivity.
Qed.

Lemma first_some_skip {R} (step : string -> option R) : forall pre l,
  (forall q, In q pre -> step q = None) -> first_some step (pre ++ l) = first_some step l.
Proof.
  induction pre as [|q pre IH]; intros l H; [reflexivity|].
  simpl. rewrite (H q (or_introl eq_refl)). apply IH. intros q' Hq'. apply H. right. exact Hq'.
Qed.

Lemma first_some_found {R} (step : string -> option R) : forall ps r,
  first_some step ps = Some r -> exists p, In p ps /\ step p = Some r.
Proof.
  induction ps as [|p ps IH]; intros r H; [discriminate|].
  simpl in H. destruct (step p) eqn:E.
  - injection H as <-. exists p. split; [left; reflexivity | exact E].
  - destruct (IH r H) as (q & Hq & Hs). exists q. split; [right; exact Hq | exact Hs].
Qed.

Lemma first_some_none {R} (step : string -> option R) : forall ps,
  first_some step ps = None <-> (forall q, In q ps -> step q = None).
Proof.
  induction ps as [|p ps IH]; simpl; [split; [intros _ q []|reflexivity]|].
  destruct (step p) eqn:E; split.
  - discriminate.
  - intros H. rewrite (H p (or_introl eq_refl)) in E. discriminate.
  - intros H q [<-|Hq]; [exact E | apply IH; assumption].
  - intros H. apply IH. intros q Hq. apply H. right. exact Hq.
Qed.

Lemma parse_xmrig_version_triple : forall output v,
  parse_xmrig_version output = Some v -> version_triple_spec v <> None.
Proof.
  intros output v H. unfold parse_xmrig_version in H.
  destruct (search_version None (list_ascii_of_string output)) as [m|] eqn:E; [|discriminate].
  injection H as <-.
  destruct (search_version_shape _ _ _ E) as (d1 & d2 & d3 & -> & H1 & H2 & H3).
  unfold version_triple_spec. rewrite list_ascii_of_string_of_list_ascii.
  rewrite (split_dot_digits_dot d1 _ (component_ok_digits d1 H1)).
  rewrite (split_dot_digits_dot d2 _ (component_ok_digits d2 H2)).
  rewrite (split_dot_digits d3 (component_ok_digits d3 H3)).
  rewrite H1, H2, H3. discriminate.
Qed.

Lemma probe_xmrig_not_notfound : forall run isfile load p,
  probe_xmrig run isfile load p <> Some SNotFound.
Proof.
  intros run isfile load p. unfold probe_xmrig.
  destruct (run p); [|discriminate].
  destruct (parse_xmrig_version s); [|discriminate].
  destruct (isfile _); [destruct (load _)|]; discriminate.
Qed.

(** ** [search_xmrig] *)

(** X4: the walk visits the [xmrig]/[xmrig.exe] files in order, skips
    those whose [--version] run raises, and stops at the first one that
    runs: the program dies there if its output has no version (later
    files are not tried); otherwise that version and path are reported
    with the lines of the [config.json] beside it ([[]] when there is
    none, death when it cannot be read). *)
Theorem search_xmrig_first_runnable : forall run isfile load walk pre p post output,
  walk_paths is_xmrig_name walk = (pre ++ p :: post)%list ->
  (forall q, In q pre -> run q = None) ->
  run p = Some output ->
  (parse_xmrig_version output = None ->
     search_xmrig run isfile load walk = SDie "Unable to parse version from xmrig output.")
  /\ (forall v, parse_xmrig_version output = Some v ->
        let config_path := posix_join (dirname p) "config.json" in
        search_xmrig run isfile load walk
        = if isfile config_path then
            match load config_path with
            | Some lines => SFound v p lines
            | None => SDie "Failed to read config.json"
            end
          else SFound v p []).
Proof.
  intros run isfile load walk pre p post output Hw Hpre Hp.
  unfold search_xmrig. rewrite walk_first_flat, Hw, first_some_skip.
  2: { intros q Hq. unfold probe_xmrig. rewrite (Hpre q Hq). reflexivity. }
  cbn [first_some]. unfold probe_xmrig at 1. rewrite Hp. split.
  - intros Hn. rewrite Hn. reflexivity.
  - intros v Hv. unfold probe_xmrig. rewrite Hp, Hv. cbv zeta.
    destruct (isfile _); [destruct (load _)|]; reflexivity.
Qed.

Lemma search_xmrig_first_runnable_witness :
  search_xmrig (fun p => if String.eqb p "/opt/b/xmrig" then Some "XMRig 6.21.0" else None)
    (fun _ => false) (fun _ => None)
    [("/opt/a", ["xmrig"; "README"]); ("/opt/b", ["xmrig"])]
  = SFound "6.21.0" "/opt/b/xmrig" [].
Proof.
  destruct (search_xmrig_first_runnable
              (fun p => if String.eqb p "/opt/b/xmrig" then Some "XMRig 6.21.0" else None)
              (fun _ => false) (fun _ => None)
              [("/opt/a", ["xmrig"; "README"]); ("/opt/b", ["xmrig"])]
              ["/opt/a/xmrig"] "/opt/b/xmrig" [] "XMRig 6.21.0")
    as [_ H].
  - vm_compute. reflexivity.
  - intros q [<-|[]]. vm_compute. reflexivity.
  - vm_compute. reflexivity.
  - exact (H "6.21.0" (eq_refl _)).
Defined.

(** X5: a reported installation is one of the walked [xmrig] files whose
    [--version] output yielded that version, a well-formed [N.N.N]
    triple; its config lines are empty when no [config.json] is beside
    it. *)
Theorem search_xmrig_found_sound : forall run isfile load walk v p lines,
  search_xmrig run isfile load walk = SFound v p lines ->
  In p (walk_paths is_xmrig_name walk)
  /\ (exists output, run p = Some output /\ parse_xmrig_version output = Some v)
  /\ version_triple_spec v <> None
  /\ (isfile (posix_join (dirname p) "config.json") = false -> lines = []).
Proof.
  intros run isfile load walk v p lines H. unfold search_xmrig in H.
  rewrite walk_first_flat in H.
  destruct (first_some _ _) as [r|] eqn:E; [|discriminate]. subst r.
  destruct (first_some_found _ _ _ E) as (q & Hq & Hs).
  unfold probe_xmrig in Hs.
  destruct (run q) as [output|] eqn:Hr; [|discriminate].
  destruct (parse_xmrig_version output) as [v'|] eqn:Hv; [|discriminate].
  destruct (isfile _) eqn:Hf; [destruct (load _)|]; try discriminate;
    injection Hs as <- <- <-;
    (split; [exact Hq|]; split; [exists output; split; [exact Hr | exact Hv]|];
     split; [exact (parse_xmrig_version_triple _ _ Hv)|]).
  - intros Hf'. congruence.
  - intros _. reflexivity.
Qed.

Lemma search_xmrig_found_sound_witness :
  In "/opt/b/xmrig" (walk_paths is_xmrig_name [("/opt/b", ["xmrig"])])
  /\ version_triple_spec "6.21.0" <> None.
Proof.
  destruct (search_xmrig_found_sound
              (fun _ => Some "XMRig 6.21.0") (fun _ => false) (fun _ => None)
              [("/opt/b", ["xmrig"])] "6.21.0" "/opt/b/xmrig" [])
    as (Hin & _ & Hv & _).
  - vm_compute. reflexivity.
  - split; [exact Hin | exact Hv].
Defined.

(** X6: the search reports nothing found exactly when every [xmrig] or
    [xmrig.exe] file of the walk fails to run. *)
Theorem search_xmrig_not_found : forall run isfile load walk,
  search_xmrig run isfile load walk = SNotFound
  <-> (forall q, In q (walk_paths is_xmrig_name walk) -> run q = None).
Proof.
  intros run isfile load walk. unfold search_xmrig. rewrite walk_first_flat. split.
  - intros H q Hq.
    destruct (first_some _ _) as [r|] eqn:E.
    + subst r. destruct (first_some_found _ _ _ E) as (q' & _ & Hs).
      exfalso. exact (probe_xmrig_not_notfound _ _ _ _ Hs).
    + pose proof (proj1 (first_some_none _ _) E q Hq) as Hn.
      unfold probe_xmrig in Hn. destruct (run q) as [output|]; [|reflexivity].
      destruct (parse_xmrig_version output); [destruct (isfile _); [destruct (load _)|]|];
        discriminate.
  - intros H. rewrite (proj2 (first_some_none _ _)); [reflexivity|].
    intros q Hq. unfold probe_xmrig. rewrite (H q Hq). reflexivity.
Qed.

(** ** [preserve_config] *)

(** X7: [preserve_config] passes over the [config.json] files that are
    the old one and acts on the first other one: with as many lines as
    the old configuration it is overwritten with the old lines, otherwise
    its pools are rewritten by [update_config_json]. *)
Theorem preserve_config_first_other : forall old_path old_lines inode load cfg walk pre p post lines,
  walk_paths is_config_name walk = (pre ++ p :: post)%list ->
  (forall q, In q pre ->
     samefile inode q (posix_join (dirname old_path) "config.json") = Some true) ->
  samefile inode p (posix_join (dirname old_path) "config.json") = Some false ->
  load p = Some lines ->
  preserve_config old_path old_lines inode load cfg walk
  = if (length lines =? length old_lines)%nat then PCOverwrite p old_lines
    else PCMismatch p (update_config_json (cfg (posix_join (dirname p) "config.json"))).
Proof.
  intros old_path old_lines inode load cfg walk pre p post lines Hw Hpre Hp Hl.
  unfold preserve_config. rewrite walk_first_flat, Hw, first_some_skip.
  2: { intros q Hq. unfold preserve_step. rewrite (Hpre q Hq). reflexivity. }
  cbn [first_some]. unfold preserve_step at 1. rewrite Hp, Hl.
  destruct (length lines =? length old_lines)%nat; reflexivity.
Qed.

Lemma preserve_config_first_other_witness :
  preserve_config "/d/old/xmrig" ["{"; "}"]
    (fun p => if String.eqb p "/d/old/config.json" then Some 1%Z else Some 2%Z)
    (fun _ => Some ["{"; "}"]) (fun _ => NoFile)
    [("/d/old", ["config.json"]); ("/d/new", ["config.json"])]
  = PCOverwrite "/d/new/config.json" ["{"; "}"].
Proof.
  rewrite (preserve_config_first_other "/d/old/xmrig" ["{"; "}"]
             (fun p => if String.eqb p "/d/old/config.json" then Some 1%Z else Some 2%Z)
             (fun _ => Some ["{"; "}"]) (fun _ => NoFile)
             [("/d/old", ["config.json"]); ("/d/new", ["config.json"])]
             ["/d/old/config.json"] "/d/new/config.json" [] ["{"; "}"]).
  - reflexivity.
  - vm_compute. reflexivity.
  - intros q [<-|[]]. vm_compute. reflexivity.
  - vm_compute. reflexivity.
  - reflexivity.
Defined.

(** X8: the file [preserve_config] overwrites or rewrites is a walked
    [config.json] that exists and is not the old configuration file; an
    overwrite writes the old lines into a file with the same number of
    lines. *)
Theorem preserve_config_never_old : forall old_path old_lines inode load cfg walk,
  (forall p lines, preserve_config old_path old_lines inode load cfg walk = PCOverwrite p lines ->
     In p (walk_paths is_config_name walk)
     /\ samefile inode p (posix_join (dirname old_path) "config.json") = Some false
     /\ lines = old_lines
     /\ exists new_lines, load p = Some new_lines /\ length new_lines = length old_lines)
  /\ (forall p u, preserve_config old_path old_lines inode load cfg walk = PCMismatch p u ->
     In p (walk_paths is_config_name walk)
     /\ samefile inode p (posix_join (dirname old_path) "config.json") = Some false
     /\ exists new_lines, load p = Some new_lines /\ length new_lines <> length old_lines).
Proof.
  intros old_path old_lines inode load cfg walk.
  unfold preserve_config. rewrite walk_first_flat.
  destruct (first_some _ _) as [r|] eqn:E; [|split; discriminate].
  destruct (first_some_found _ _ _ E) as (q & Hq & Hs).
  unfold preserve_step in Hs.
  destruct (samefile inode q _) as [[|]|] eqn:Hsame; try discriminate.
  - destruct (load q) as [nl|] eqn:Hl; [|injection Hs as <-; split; discriminate].
    destruct (Nat.eqb_spec (length nl) (length old_lines)) as [Heq|Hne];
      injection Hs as <-; split; intros; try discriminate.
    + injection H as <- <-. split; [exact Hq|]. split; [exact Hsame|].
      split; [reflexivity|]. exists nl. split; [exact Hl | exact Heq].
    + injection H as <- <-. split; [exact Hq|]. split; [exact Hsame|].
      exists nl. split; [exact Hl | exact Hne].
  - injection Hs as <-. split; discriminate.
Qed.

Lemma preserve_config_never_old_witness :
  In "/d/new/config.json"
     (walk_paths is_config_name [("/d/old", ["config.json"]); ("/d/new", ["config.json"])]).
Proof.
  destruct (preserve_config_never_old "/d/old/xmrig" ["{"; "}"]
              (fun p => if String.eqb p "/d/old/config.json" then Some 1%Z else Some 2%Z)
              (fun _ => Some ["{"; "}"]) (fun _ => NoFile)
              [("/d/old", ["config.json"]); ("/d/new", ["config.json"])]) as [H _].
  apply (H "/d/new/config.json" ["{"; "}"]). vm_compute. reflexivity.
Defined.

(** X9: when the old installation has no [config.json], [samefile]
    raises on the first [config.json] the walk meets, and the program
    crashes there. *)
Theorem preserve_config_crash_without_old_config : forall old_path old_lines inode load cfg walk,
  inode (posix_join (dirname old_path) "config.json") = None ->
  walk_paths is_config_name walk <> [] ->
  preserve_config old_path old_lines inode load cfg walk = PCCrash.
Proof.
  intros old_path old_lines inode load cfg walk Hold Hne.
  unfold preserve_config. rewrite walk_first_flat.
  destruct (walk_paths is_config_name walk) as [|p ps]; [contradiction|].
  cbn [first_some]. unfold preserve_step at 1, samefile at 1. rewrite Hold.
  destruct (inode p); reflexivity.
Qed.

Lemma preserve_config_crash_without_old_config_witness :
  preserve_config "/d/old/xmrig" [] (fun p => if String.eqb p "/d/new/config.json" then Some 2%Z else None)
    (fun _ => Some []) (fun _ => NoFile) [("/d/new", ["config.json"])]
  = PCCrash.
Proof.
  apply preserve_config_crash_without_old_config.
  - vm_compute. reflexivity.
  - vm_compute. discriminate.
Defined.

(** ** [extract_archive] *)

Lemma set_diff_In : forall after before x,
  In x (set_diff after before) <-> In x after /\ ~ In x before.
Proof.
  intros after before x. unfold set_diff. rewrite filter_In, nodup_In.
  rewrite negb_true_iff. split.
  - intros [Ha Hb]. split; [exact Ha|]. intros Hin.
    assert (existsb (String.eqb x) before = true) as Ht
      by (apply existsb_exists; exists x; split; [exact Hin | apply String.eqb_refl]).
    congruence.
  - intros [Ha Hb]. split; [exact Ha|].
    destruct (existsb (String.eqb x) before) eqn:E; [|reflexivity].
    apply existsb_exists in E as (y & Hy & Hxy). apply String.eqb_eq in Hxy. subst y.
    contradiction.
Qed.

(** X10: [extract_archive] rewrites a configuration only after a known
    archive format was unpacked and the archive removed, and only in a
    directory of [dest_dir] that was not there before the extraction. *)
Theorem extract_archive_config_in_new_dir : forall filepath dest_dir before after
    unpack_ok remove_ok order isdir cfg ed u,
  (forall l x, In x (order l) <-> In x l) ->
  extract_archive filepath dest_dir before after unpack_ok remove_ok order isdir cfg = XConfig ed u ->
  archive_kind_of filepath <> KUnknown /\ unpack_ok = true /\ remove_ok = true
  /\ exists d, In d after /\ ~ In d before /\ ed = posix_join dest_dir d
     /\ isdir ed = true /\ u = update_config_json (cfg (posix_join ed "config.json")).
Proof.
  intros filepath dest_dir before after unpack_ok remove_ok order isdir cfg ed u Hord H.
  unfold extract_archive in H.
  assert (forall k, k <> KUnknown ->
    (if negb (unpack_ok && remove_ok) then XDie "Extraction failed"
     else match order (set_diff after before) with
          | [] => XNoNewDir
          | d :: _ =>
              if isdir (posix_join dest_dir d)
              then XConfig (posix_join dest_dir d)
                     (update_config_json (cfg (posix_join (posix_join dest_dir d) "config.json")))
              else XNotADir (posix_join dest_dir d)
          end) = XConfig ed u ->
    k <> KUnknown /\ unpack_ok = true /\ remove_ok = true
    /\ exists d, In d after /\ ~ In d before /\ ed = posix_join dest_dir d
       /\ isdir ed = true /\ u = update_config_json (cfg (posix_join ed "config.json"))) as G.
  { intros k Hk H'. split; [exact Hk|].
    destruct unpack_ok, remove_ok; cbn [andb negb] in H'; try discriminate.
    split; [reflexivity|]. split; [reflexivity|].
    destruct (order (set_diff after before)) as [|d ds] eqn:E; [discriminate|].
    destruct (isdir (posix_join dest_dir d)) eqn:Hd; [|discriminate].
    injection H' as <- <-.
    assert (In d (set_diff after before)) as Hin
      by (apply (Hord (set_diff after before) d); rewrite E; left; reflexivity).
    apply set_diff_In in Hin as [Ha Hb].
    exists d. repeat split; assumption. }
  destruct (archive_kind_of filepath); [apply G; [discriminate | exact H] ..|discriminate].
Qed.

Lemma extract_archive_config_in_new_dir_witness :
  exists d, In d ["xmrig-6.25.0"; "xmrig-6.22.2"] /\ ~ In d ["xmrig-6.22.2"]
    /\ "/opt/xmrig-6.25.0" = posix_join "/opt" d.
Proof.
  destruct (extract_archive_config_in_new_dir "/opt/xmrig-6.25.0-linux-static-x64.tar.gz" "/opt"
              ["xmrig-6.22.2"] ["xmrig-6.25.0"; "xmrig-6.22.2"] true true (fun l => l)
              (fun _ => true) (fun _ => NoFile) "/opt/xmrig-6.25.0" CfgNotFound)
    as (_ & _ & _ & d & Ha & Hb & He & _).
  - intros l x. reflexivity.
  - vm_compute. reflexivity.
  - exists d. split; [exact Ha|]. split; [exact Hb | exact He].
Defined.

(** X11: when the extraction adds exactly one entry [d] to [dest_dir],
    whatever the set's iteration order, [extract_archive] rewrites the
    configuration of [dest_dir/d] if it is a directory and reports a file
    otherwise. *)
Theorem extract_archive_single_new_entry : forall filepath dest_dir before after
    order isdir cfg d,
  (forall l x, In x (order l) <-> In x l) ->
  (forall x, In x after /\ ~ In x before <-> x = d) ->
  archive_kind_of filepath <> KUnknown ->
  extract_archive filepath dest_dir before after true true order isdir cfg
  = if isdir (posix_join dest_dir d)
    then XConfig (posix_join dest_dir d)
           (update_config_json (cfg (posix_join (posix_join dest_dir d) "config.json")))
    else XNotADir (posix_join dest_dir d).
Proof.
  intros filepath dest_dir before after order isdir cfg d Hord Hnew Hk.
  assert (order (set_diff after before) <> [] /\
          forall x, In x (order (set_diff after before)) -> x = d) as [Hne Hall].
  { split.
    - intros E. assert (In d (order (set_diff after before))) as Hd.
      { apply Hord, set_diff_In, Hnew. reflexivity. }
      rewrite E in Hd. exact Hd.
    - intros x Hx. apply Hnew, set_diff_In, (Hord _ x), Hx. }
  unfold extract_archive. cbn [andb negb].
  destruct (order (set_diff after before)) as [|x xs] eqn:E; [contradiction|].
  rewrite (Hall x (or_introl eq_refl)).
  destruct (archive_kind_of filepath); [reflexivity | reflexivity | contradiction].
Qed.

Lemma extract_archive_single_new_entry_witness :
  extract_archive "/opt/xmrig-6.25.0-linux-static-x64.tar.gz" "/opt"
    ["xmrig-6.22.2"] ["xmrig-6.25.0"; "xmrig-6.22.2"] true true (fun l => l)
    (fun _ => true) (fun _ => NoFile)
  = XConfig "/opt/xmrig-6.25.0" CfgNotFound.
Proof.
  rewrite (extract_archive_single_new_entry "/opt/xmrig-6.25.0-linux-static-x64.tar.gz" "/opt"
             ["xmrig-6.22.2"] ["xmrig-6.25.0"; "xmrig-6.22.2"] (fun l => l)
             (fun _ => true) (fun _ => NoFile) "xmrig-6.25.0").
  - reflexivity.
  - intros l x. reflexivity.
  - intros x. split.
    + intros [Ha Hb]. destruct Ha as [<-|[<-|[]]]; [reflexivity|].
      exfalso. apply Hb. left. reflexivity.
    + intros ->. split; [left; reflexivity|]. intros [H|[]]. discriminate.
  - vm_compute. discriminate.
Defined.

(** X12: when the extraction adds nothing to [dest_dir], a known archive
    is unpacked and removed and no configuration is rewritten. *)
Theorem extract_archive_no_new_entry : forall filepath dest_dir before after order isdir cfg,
  (forall l x, In x (order l) <-> In x l) ->
  (forall x, In x after -> In x before) ->
  archive_kind_of filepath <> KUnknown ->
  extract_archive filepath dest_dir before after true true order isdir cfg = XNoNewDir.
Proof.
  intros filepath dest_dir before after order isdir cfg Hord Hsub Hk.
  unfold extract_archive. cbn [andb negb].
  destruct (order (set_diff after before)) as [|x xs] eqn:E.
  - destruct (archive_kind_of filepath); [reflexivity | reflexivity | contradiction].
  - exfalso. assert (In x (set_diff after before)) as Hx
      by (apply (Hord _ x); rewrite E; left; reflexivity).
    apply set_diff_In in Hx as [Ha Hb]. exact (Hb (Hsub x Ha)).
Qed.

Lemma extract_archive_no_new_entry_witness :
  extract_archive "/opt/xmrig.zip" "/opt" ["a"; "b"] ["b"; "a"; "b"] true true (fun l => l)
    (fun _ => true) (fun _ => NoFile) = XNoNewDir.
Proof.
  apply extract_archive_no_new_entry.
  - intros l x. reflexivity.
  - intros x [<-|[<-|[<-|[]]]]; simpl; auto.
  - vm_compute. discriminate.
Defined.

(** ** The file name of [download_asset] *)

Lemma list_ascii_of_string_app : forall a b,
  list_ascii_of_string (a ++ b) = (list_ascii_of_string a ++ list_ascii_of_string b)%list.
Proof. induction a as [|c a IH]; intros b; simpl; [reflexivity | rewrite IH; reflexivity]. Qed.

Lemma string_append_assoc : forall a b c, ((a ++ b) ++ c)%string = (a ++ b ++ c)%string.
Proof. induction a as [|x a IH]; intros b c; simpl; [reflexivity | rewrite IH; reflexivity]. Qed.

Lemma take_while_all : forall f l r,
  forallb f l = true -> take_while f (l ++ r)%list = (l ++ take_while f r)%list.
Proof.
  induction l as [|c l IH]; intros r H; [reflexivity|].
  simpl in H. apply andb_true_iff in H as [Hc Hl]. simpl. rewrite Hc, (IH r Hl). reflexivity.
Qed.

Lemma take_while_forallb : forall f l, forallb f (take_while f l) = true.
Proof.
  induction l as [|c l IH]; [reflexivity|]. simpl.
  destruct (f c) eqn:E; [simpl; rewrite E, IH; reflexivity | reflexivity].
Qed.

Lemma forallb_rev : forall {A} (f : A -> bool) l, forallb f (rev l) = forallb f l.
Proof.
  intros A f. induction l as [|c l IH]; [reflexivity|].
  simpl. rewrite forallb_app, IH. simpl. rewrite andb_true_r, andb_comm. reflexivity.
Qed.

Lemma basename_no_slash : forall p,
  forallb not_slash (list_ascii_of_string (basename p)) = true.
Proof.
  intros p. unfold basename. rewrite list_ascii_of_string_of_list_ascii, forallb_rev.
  apply take_while_forallb.
Qed.

Lemma no_slash_prefix : forall s, forallb not_slash (list_ascii_of_string s) = true ->
  prefix "/" s = false.
Proof.
  intros [|c s] H; [reflexivity|]. simpl in H. apply andb_true_iff in H as [Hc _].
  change (prefix "/" (String c s)) with (if ascii_dec "/" c then prefix "" s else false).
  destruct (ascii_dec "/" c) as [E|]; [subst c; discriminate | reflexivity].
Qed.

Lemma basename_after_slash : forall a s,
  forallb not_slash (list_ascii_of_string s) = true ->
  (a = "" \/ ends_with_slash a = true) -> basename (a ++ s) = s.
Proof.
  intros a s Hs Ha. unfold basename.
  rewrite list_ascii_of_string_app, rev_app_distr, take_while_all by (rewrite forallb_rev; exact Hs).
  replace (take_while not_slash (rev (list_ascii_of_string a))) with (@nil ascii).
  - rewrite app_nil_r, rev_involutive. apply string_of_list_ascii_of_string.
  - destruct Ha as [->|Ha]; [reflexivity|]. unfold ends_with_slash in Ha.
    destruct (rev (list_ascii_of_string a)) as [|c r]; [discriminate|].
    apply Ascii.eqb_eq in Ha. subst c. reflexivity.
Qed.

(** X13: [download_asset] saves the download directly inside [dest_dir]:
    the file name has no slash, the target path is [dest_dir], a slash
    when [dest_dir] is not empty and does not end in one, then the file
    name, and its basename is the file name again. *)
Theorem download_target_in_dest_dir : forall dest_dir url_path,
  let '(filename, filepath) := download_target dest_dir url_path in
  forallb not_slash (list_ascii_of_string filename) = true
  /\ filepath = (if String.eqb dest_dir "" || ends_with_slash dest_dir
                 then dest_dir ++ filename else dest_dir ++ "/" ++ filename)
  /\ basename filepath = filename.
Proof.
  intros dest_dir url_path. unfold download_target.
  pose proof (basename_no_slash url_path) as Hs.
  set (fn := basename url_path) in *.
  assert (posix_join dest_dir fn = (if String.eqb dest_dir "" || ends_with_slash dest_dir
                 then dest_dir ++ fn else dest_dir ++ "/" ++ fn)) as Hj
    by (unfold posix_join; rewrite (no_slash_prefix fn Hs); reflexivity).
  split; [exact Hs|]. split; [exact Hj|]. rewrite Hj.
  destruct (String.eqb_spec dest_dir "") as [->|_]; [apply basename_after_slash; auto|].
  destruct (ends_with_slash dest_dir) eqn:E; cbn [orb].
  - apply basename_after_slash; auto.
  - replace (dest_dir ++ "/" ++ fn) with ((dest_dir ++ "/") ++ fn)
      by apply string_append_assoc.
    apply basename_after_slash; [exact Hs|]. right.
    unfold ends_with_slash. rewrite list_ascii_of_string_app, rev_app_distr. reflexivity.
Qed.

(** ** [detect_system] *)

Lemma assoc_get_In_values : forall {V} k (d : list (string * V)) v,
  assoc_get k d = Some v -> In v (map snd d).
Proof.
  intros V k. induction d as [|[k' v'] d IH]; intros v H; simpl in H; [discriminate|].
  destruct (String.eqb k k'); [injection H as <-; left; reflexivity | right; exact (IH v H)].
Qed.

(** X14: [detect_system] names one of four operating systems and one of
    five architectures, whatever [platform] reports. *)
Theorem detect_system_range : forall system machine,
  let '(os_name, arch) := detect_system system machine in
  In os_name ["linux"; "macos"; "windows"; "unknown"]
  /\ In arch ["x64"; "x86"; "arm64"; "arm32"; "unknown"].
Proof.
  intros system machine. unfold detect_system, dict_get_default. split.
  - destruct (assoc_get (lower system) os_map) as [v|] eqn:E.
    + apply assoc_get_In_values in E. simpl in E |- *. tauto.
    + simpl. tauto.
  - destruct (assoc_get (lower machine) arch_map) as [v|] eqn:E.
    + apply assoc_get_In_values in E. simpl in E |- *. tauto.
    + destruct (contains "arm" (lower machine)); simpl; tauto.
Qed.

(** ** [parse_xmrig_version] *)

Lemma match_version_at_bounds : forall prev l m,
  match_version_at prev l = Some m ->
  boundary_before prev = true /\ exists post, l = (m ++ post)%list /\ boundary_after post = true.
Proof.
  intros prev l m H. unfold match_version_at in H.
  destruct (boundary_before prev); [|discriminate]. cbn [negb] in H. split; [reflexivity|].
  destruct (span_digits l) as [d1 r1] eqn:E1. apply span_digits_spec in E1 as [_ ->].
  destruct d1 as [|x1 d1]; [discriminate|]. destruct r1 as [|c1 r1]; [discriminate|].
  destruct (Ascii.eqb_spec c1 ".") as [->|]; [|discriminate]. cbn [negb] in H.
  destruct (span_digits r1) as [d2 r2] eqn:E2. apply span_digits_spec in E2 as [_ ->].
  destruct d2 as [|x2 d2]; [discriminate|]. destruct r2 as [|c2 r2]; [discriminate|].
  destruct (Ascii.eqb_spec c2 ".") as [->|]; [|discriminate]. cbn [negb] in H.
  destruct (span_digits r2) as [d3 r3] eqn:E3. apply span_digits_spec in E3 as [_ ->].
  destruct d3 as [|x3 d3]; [discriminate|].
  destruct (boundary_after r3) eqn:B; [|discriminate].
  injection H as <-. exists r3. split; [|exact B].
  simpl. rewrite <- ?app_assoc. simpl. rewrite <- ?app_assoc. reflexivity.
Qed.

Lemma last_before_cons : forall prev c pre,
  last_before prev (c :: pre) = last_before (Some c) pre.
Proof.
  intros prev c pre. unfold last_before. simpl. destruct (rev pre); reflexivity.
Qed.

Lemma search_version_bounds : forall l prev m,
  search_version prev l = Some m ->
  exists pre post, l = (pre ++ m ++ post)%list
    /\ boundary_before (last_before prev pre) = true /\ boundary_after post = true.
Proof.
  induction l as [|c l IH]; intros prev m H; cbn [search_version] in H;
    destruct (match_version_at prev _) as [m'|] eqn:E.
  - injection H as <-. apply match_version_at_bounds in E as [Hb (post & Hl & Ha)].
    exists [], post. split; [exact Hl|]. split; [exact Hb | exact Ha].
  - discriminate.
  - injection H as <-. apply match_version_at_bounds in E as [Hb (post & Hl & Ha)].
    exists [], post. split; [exact Hl|]. split; [exact Hb | exact Ha].
  - destruct (IH (Some c) m H) as (pre & post & Hl & Hb & Ha).
    exists (c :: pre), post. rewrite Hl, last_before_cons.
    split; [reflexivity|]. split; [exact Hb | exact Ha].
Qed.

(** X15: the version [parse_xmrig_version] returns is a piece of the
    program's output, not preceded and not followed by a letter, digit or
    underscore. *)
Theorem parse_xmrig_version_occurs : forall output v,
  parse_xmrig_version output = Some v ->
  exists pre post, list_ascii_of_string output = (pre ++ list_ascii_of_string v ++ post)%list
    /\ boundary_before (last_before None pre) = true /\ boundary_after post = true.
Proof.
  intros output v H. unfold parse_xmrig_version in H.
  destruct (search_version None (list_ascii_of_string output)) as [m|] eqn:E; [|discriminate].
  injection H as <-. rewrite list_ascii_of_string_of_list_ascii.
  exact (search_version_bounds _ _ _ E).
Qed.

Lemma parse_xmrig_version_occurs_witness :
  exists pre post, list_ascii_of_string "XMRig 6.22.2" = (pre ++ list_ascii_of_string "6.22.2" ++ post)%list
    /\ boundary_before (last_before None pre) = true /\ boundary_after post = true.
Proof.
  apply (parse_xmrig_version_occurs "XMRig 6.22.2" "6.22.2"). vm_compute. reflexivity.
Defined.

(** ** [update_config_json] *)

Lemma dict_set_existing : forall k v d, assoc_get k d = Some v -> dict_set k v d = d.
Proof.
  intros k v. induction d as [|[k' v'] d IH]; intros H; simpl in H |- *; [discriminate|].
  destruct (String.eqb_spec k k') as [<-|]; [injection H as ->; reflexivity|].
  rewrite (IH H). reflexivity.
Qed.

Lemma dict_set_twice : forall k v v' d, dict_set k v (dict_set k v' d) = dict_set k v d.
Proof.
  intros k v v'. induction d as [|[k' w] d IH]; simpl.
  - rewrite String.eqb_refl. reflexivity.
  - destruct (String.eqb k k') eqn:E; simpl.
    + rewrite String.eqb_refl. reflexivity.
    + rewrite E, IH. reflexivity.
Qed.

Lemma rewrite_pool_idem : forall pool, rewrite_pool (rewrite_pool pool) = rewrite_pool pool.
Proof.
  intros pool. unfold rewrite_pool at 1.
  rewrite (dict_set_existing "url" (JStr pool_url)).
  2: { unfold rewrite_pool. rewrite !assoc_get_dict_set_other by discriminate.
       apply assoc_get_dict_set_same. }
  rewrite (dict_set_existing "user" (JStr pool_user)).
  2: { unfold rewrite_pool. rewrite !assoc_get_dict_set_other by discriminate.
       apply assoc_get_dict_set_same. }
  rewrite (dict_set_existing "tls" (JBool true)).
  2: { unfold rewrite_pool. rewrite !assoc_get_dict_set_other by discriminate.
       apply assoc_get_dict_set_same. }
  apply dict_set_existing. unfold rewrite_pool. apply assoc_get_dict_set_same.
Qed.

(** X16: running [update_config_json] again on a configuration it wrote
    writes the same configuration back: the rewrite is idempotent. *)
Theorem update_config_json_idempotent : forall f c,
  update_config_json f = CfgWritten c -> update_config_json (Parsed c) = CfgWritten c.
Proof.
  intros f c H. destruct f as [| |config]; try discriminate.
  destruct config as [| b | z | s | l | kvs]; unfold update_config_json in H |- *;
    try discriminate.
  - destruct (contains "pools" s) eqn:E; [discriminate|]. injection H as <-.
    rewrite E. reflexivity.
  - destruct (existsb is_pools_str l) eqn:E; [discriminate|]. injection H as <-.
    rewrite E. reflexivity.
  - destruct (assoc_get "pools" kvs) as [j|] eqn:E;
      [|injection H as <-; rewrite E; reflexivity].
    destruct j as [| | | | l | ]; try (injection H as <-; rewrite E; reflexivity).
    destruct l as [|x rest]; [injection H as <-; rewrite E; reflexivity|].
    destruct x; try discriminate. injection H as <-.
    rewrite assoc_get_dict_set_same, rewrite_pool_idem, dict_set_twice. reflexivity.
Qed.

Lemma update_config_json_idempotent_witness :
  update_config_json (Parsed (JObj [("pools", JArr [JObj [("url", JStr "x")]])]))
  = CfgWritten (JObj [("pools", JArr [JObj (rewrite_pool [("url", JStr "x")])])])
  /\ update_config_json (Parsed (JObj [("pools", JArr [JObj (rewrite_pool [("url", JStr "x")])])]))
  = CfgWritten (JObj [("pools", JArr [JObj (rewrite_pool [("url", JStr "x")])])]).
Proof.
  split; [reflexivity|].
  apply (update_config_json_idempotent (Parsed (JObj [("pools", JArr [JObj [("url", JStr "x")]])]))).
  reflexivity.
Defined.

Lemma keys_dict_set : forall k v d,
  map fst (dict_set k v d)
  = (map fst d ++ (if existsb (String.eqb k) (map fst d) then [] else [k]))%list.
Proof.
  intros k v. induction d as [|[k' w] d IH]; simpl; [reflexivity|].
  destruct (String.eqb_spec k k') as [<-|]; simpl.
  - rewrite app_nil_r. reflexivity.
  - rewrite IH. reflexivity.
Qed.

Lemma assoc_get_existsb : forall {V} k (d : list (string * V)) v,
  assoc_get k d = Some v -> existsb (String.eqb k) (map fst d) = true.
Proof.
  intros V k. induction d as [|[k' w] d IH]; intros v H; simpl in H |- *; [discriminate|].
  destruct (String.eqb k k'); [reflexivity | exact (IH v H)].
Qed.

(** X17: the rewrite keeps the order of the keys, which [json.dump]
    writes in insertion order: the top-level keys are unchanged, and the
    first pool keeps its keys in order, followed by those of [url],
    [user], [tls] and [tls-fingerprint] it did not have. *)
Theorem update_config_json_key_order : forall kvs pool rest,
  assoc_get "pools" kvs = Some (JArr (JObj pool :: rest)) ->
  exists kvs' pool',
    update_config_json (Parsed (JObj kvs)) = CfgWritten (JObj kvs')
    /\ map fst kvs' = map fst kvs
    /\ assoc_get "pools" kvs' = Some (JArr (JObj pool' :: rest))
    /\ map fst pool' = (map fst pool
         ++ filter (fun k => negb (existsb (String.eqb k) (map fst pool)))
                   ["url"; "user"; "tls"; "tls-fingerprint"])%list.
Proof.
  intros kvs pool rest H.
  exists (dict_set "pools" (JArr (JObj (rewrite_pool pool) :: rest)) kvs), (rewrite_pool pool).
  split; [unfold update_config_json; rewrite H; reflexivity|].
  split; [rewrite keys_dict_set, (assoc_get_existsb _ _ _ H), app_nil_r; reflexivity|].
  split; [apply assoc_get_dict_set_same|].
  unfold rewrite_pool. rewrite !keys_dict_set, !existsb_app. cbn [filter].
  generalize (existsb (String.eqb "url") (map fst pool)) as bu,
    (existsb (String.eqb "user") (map fst pool)) as bs,
    (existsb (String.eqb "tls") (map fst pool)) as bt,
    (existsb (String.eqb "tls-fingerprint") (map fst pool)) as bf.
  generalize (map fst pool) as K.
  intros K [|] [|] [|] [|]; simpl; rewrite <- ?app_assoc; reflexivity.
Qed.

Lemma update_config_json_key_order_witness :
  exists kvs' pool',
    update_config_json (Parsed (JObj [("api", JNull); ("pools", JArr [JObj [("user", JStr "u"); ("pass", JStr "x")]])]))
    = CfgWritten (JObj kvs')
    /\ map fst kvs' = map fst [("api", JNull); ("pools", JArr [JObj [("user", JStr "u"); ("pass", JStr "x")]])]
    /\ assoc_get "pools" kvs' = Some (JArr [JObj pool'])
    /\ map fst pool' = (map fst [("user", JStr "u"); ("pass", JStr "x")]
         ++ filter (fun k => negb (existsb (String.eqb k) (map fst [("user", JStr "u"); ("pass", JStr "x")])))
                   ["url"; "user"; "tls"; "tls-fingerprint"])%list.
Proof.
  apply (update_config_json_key_order
           [("api", JNull); ("pools", JArr [JObj [("user", JStr "u"); ("pass", JStr "x")]])]
           [("user", JStr "u"); ("pass", JStr "x")] []).
  reflexivity.
Defined.

(** ** The choice of the download in the main program *)

Lemma choose_asset_In : forall matches inputs a,
  choose_asset matches inputs = Some a -> In a matches.
Proof.
  intros matches inputs a. induction inputs as [|s rest IH]; simpl; [discriminate|].
  destruct (py_int s) as [choice|]; [|exact IH].
  destruct ((1 <=? choice) && (choice <=? Z.of_nat (length matches)))%Z; [|exact IH].
  apply nth_error_In.
Qed.

(** X18: the asset the main program downloads is one of the release's
    assets and passes the host filter of [find_matching_assets], whether
    it is the only match or picked by the user. *)
Theorem select_asset_matches_host : forall os_name arch assets inputs a,
  select_asset os_name arch assets inputs = SelAsset a ->
  In a assets /\ asset_matches os_name arch a = true.
Proof.
  intros os_name arch assets inputs a H.
  assert (In a (find_matching_assets assets os_name arch)) as Hin.
  { unfold select_asset, resolve in H.
    destruct (find_matching_assets assets os_name arch) as [|b [|c l]]; [discriminate| |].
    - injection H as <-. left. reflexivity.
    - destruct (choose_asset _ inputs) eqn:E; [|discriminate].
      injection H as <-. exact (choose_asset_In _ _ _ E). }
  unfold find_matching_assets in Hin. apply filter_In in Hin. exact Hin.
Qed.

Lemma select_asset_matches_host_witness :
  In static_asset [jammy_asset; static_asset; unknown_os_asset]
  /\ asset_matches "linux" "x64" static_asset = true.
Proof.
  apply (select_asset_matches_host "linux" "x64" [jammy_asset; static_asset; unknown_os_asset] ["2"]).
  vm_compute. reflexivity.
Defined.

(** ** Paths of the walked files *)

Lemma drop_while_all : forall f l r,
  forallb f l = true -> drop_while f (l ++ r)%list = drop_while f r.
Proof.
  induction l as [|c l IH]; intros r H; [reflexivity|].
  simpl in H. apply andb_true_iff in H as [Hc Hl]. simpl. rewrite Hc. exact (IH r Hl).
Qed.

(** X19: a file found by the walks of [search_xmrig] and
    [preserve_config] at [os.path.join(root, name)] has [root] as its
    [os.path.dirname], so the [config.json] next to it is looked up in
    the walked directory itself, when [root] is not empty and does not
    end in a slash. *)
Theorem dirname_posix_join : forall root name,
  root <> "" -> ends_with_slash root = false ->
  forallb not_slash (list_ascii_of_string name) = true ->
  dirname (posix_join root name) = root.
Proof.
  intros root name Hne Hend Hname.
  unfold posix_join. rewrite (no_slash_prefix name Hname).
  destruct (String.eqb_spec root "") as [|_]; [contradiction|]. rewrite Hend. cbn [orb].
  unfold dirname.
  replace (rev (list_ascii_of_string (root ++ "/" ++ name)))
    with (rev (list_ascii_of_string name) ++ "/"%char :: rev (list_ascii_of_string root))%list
    by (rewrite !list_ascii_of_string_app, !rev_app_distr, <- app_assoc; reflexivity).
  rewrite drop_while_all by (rewrite forallb_rev; exact Hname).
  unfold ends_with_slash in Hend.
  destruct (rev (list_ascii_of_string root)) as [|c t] eqn:E.
  - exfalso. apply Hne. destruct root as [|x r]; [reflexivity|].
    simpl in E. destruct (rev (list_ascii_of_string r)); discriminate.
  - replace (drop_while not_slash ("/"%char :: c :: t)) with ("/"%char :: c :: t) by reflexivity.
    cbv zeta. rewrite rev_involutive, forallb_rev.
    change (Ascii.eqb c slash = false) in Hend.
    replace (forallb (fun c0 => Ascii.eqb c0 slash) ("/"%char :: c :: t)) with false
      by (cbn [forallb]; rewrite Hend; reflexivity).
    cbn [negb].
    replace (drop_while (fun c0 => Ascii.eqb c0 slash) ("/"%char :: c :: t)) with (c :: t)
      by (cbn [drop_while]; rewrite Hend; reflexivity).
    rewrite <- E, rev_involutive. apply string_of_list_ascii_of_string.
Qed.

Lemma dirname_posix_join_witness :
  dirname (posix_join "/opt/xmrig-6.22.2" "xmrig") = "/opt/xmrig-6.22.2".
Proof.
  apply dirname_posix_join.
  - discriminate.
  - reflexivity.
  - reflexivity.
Defined.
